(** * PDF-Processing: classification, OCR, image extraction and index assembly

    A shallow embedding of [src/process.py] ([PDFProcessor] and
    [ManualImageIndexer]) and the properties of its specification.

    Modelling conventions.
    - A Python [str] is the list of its Unicode code points ([list N]);
      [lit] turns an ASCII literal of this file into such a list.
    - A directory is a finite map from entry names to file contents
      ([gmap]); only regular files are modelled, all four working
      directories are flat. Paths are POSIX paths: names are compared and
      matched case-sensitively, code point by code point.
    - The three external programs and the image codec are the fields of a
      [Tools] record: they are inputs of every operation, never fixed. A
      program that is run returns its result: a return code, stdout and
      stderr, and the directory as it leaves it. A call of [run_cmd] that
      raises instead of returning is the subject of the last part,
      [Raising]; what comes before it is about the runs in which every
      call returns.
    - [print] appends an [Event] to the [stdout] field of the state. *)

From Stdlib Require Import NArith ZArith String Ascii Decimal DecimalNat.
From stdpp Require Import gmap list sorting.

Set Warnings "-register-all".
Local Open Scope N_scope.

(** ** Python strings *)

Module PyStr.

Abbreviation str := (list N).

(** An ASCII literal as a list of code points. *)
Definition lit (s : string) : str :=
  List.map N_of_ascii (list_ascii_of_string s).

(** [str.isspace] on one code point, the set used by [str.strip()]. *)
Definition is_space (c : N) : bool :=
  ((9 <=? c) && (c <=? 13)) || ((28 <=? c) && (c <=? 32))
  || (c =? 133) || (c =? 160) || (c =? 5760)
  || ((8192 <=? c) && (c <=? 8202))
  || (c =? 8232) || (c =? 8233) || (c =? 8239) || (c =? 8287)
  || (c =? 12288).

(** The line boundaries of [str.splitlines()]. *)
Definition is_linebreak (c : N) : bool :=
  ((10 <=? c) && (c <=? 13)) || ((28 <=? c) && (c <=? 30))
  || (c =? 133) || (c =? 8232) || (c =? 8233).

Fixpoint lstrip (s : str) : str :=
  match s with
  | c :: s' => if is_space c then lstrip s' else s
  | [] => []
  end.

Definition rstrip (s : str) : str := rev (lstrip (rev s)).

(** [s.strip()] *)
Definition strip (s : str) : str := rstrip (lstrip s).

(** [s.splitlines()]: [cur] is the line read so far, in reverse. A
    carriage return followed by a line feed is one boundary; the text after
    the last boundary is a line only when it is not empty. *)
Fixpoint splitlines_from (cur : str) (s : str) : list str :=
  match s with
  | [] => match cur with [] => [] | _ => [rev cur] end
  | c :: s' =>
      if is_linebreak c then
        rev cur ::
          match s' with
          | d :: s'' =>
              if (c =? 13) && (d =? 10) then splitlines_from [] s''
              else splitlines_from [] s'
          | [] => []
          end
      else splitlines_from (c :: cur) s'
  end.

Definition splitlines (s : str) : list str := splitlines_from [] s.

(** [str(n)] for a non-negative integer. *)
Fixpoint digits (u : Decimal.uint) : str :=
  match u with
  | Nil => []
  | D0 u => 48 :: digits u
  | D1 u => 49 :: digits u
  | D2 u => 50 :: digits u
  | D3 u => 51 :: digits u
  | D4 u => 52 :: digits u
  | D5 u => 53 :: digits u
  | D6 u => 54 :: digits u
  | D7 u => 55 :: digits u
  | D8 u => 56 :: digits u
  | D9 u => 57 :: digits u
  end.

Definition str_of_nat (n : nat) : str := digits (Nat.to_uint n).

(** [s.lower()], on the letters A to Z. No other code point lowers to a
    character of [".png"], [".jpg"] or [".jpeg"], the only strings a
    lowered suffix is compared with. *)
Definition lower_char (c : N) : N :=
  if (65 <=? c) && (c <=? 90) then c + 32 else c.

Definition lower (s : str) : str := List.map lower_char s.

(** Comparison of two [str]: lexicographic on code points, a proper
    prefix comes first. *)
Fixpoint str_leb (a b : str) : bool :=
  match a, b with
  | [], _ => true
  | _ :: _, [] => false
  | x :: a', y :: b' => (x <? y) || ((x =? y) && str_leb a' b')
  end.

Definition str_le (a b : str) : Prop := str_leb a b = true.

#[global] Instance str_le_dec : RelDecision str_le.
Proof. intros a b. unfold str_le. apply _. Defined.

(** [sorted(names)] *)
Definition sorted (l : list str) : list str := merge_sort str_le l.

(** [name.startswith(p)] *)
Fixpoint startswith (p name : str) : bool :=
  match p, name with
  | [], _ => true
  | _ :: _, [] => false
  | x :: p', y :: name' => (x =? y) && startswith p' name'
  end.

End PyStr.
Import PyStr.

(** ** Paths and globbing *)

Module PyPath.

(** [name.rfind('.')]: [Some (a, b)] when [name = a ++ b] and [b] starts
    with the last dot of [name]. *)
Fixpoint split_last_dot (name : str) : option (str * str) :=
  match name with
  | [] => None
  | c :: name' =>
      match split_last_dot name' with
      | Some (a, b) => Some (c :: a, b)
      | None => if c =? 46 then Some ([], name) else None
      end
  end.

(** [Path.suffix]: [name[i:]] when [0 < i < len(name) - 1], else empty. *)
Definition suffix (name : str) : str :=
  match split_last_dot name with
  | Some (a, b) => if (0 <? length a)%nat && (1 <? length b)%nat then b else []
  | None => []
  end.

(** [Path.stem]: [name[:i]] under the same condition, else the name. *)
Definition stem (name : str) : str :=
  match split_last_dot name with
  | Some (a, b) => if (0 <? length a)%nat && (1 <? length b)%nat then a else name
  | None => name
  end.

(** Matching of one path component against a glob pattern: [*] is any run
    of characters, [?] is any one character, every other character stands
    for itself. Bracket expressions are not modelled: the results on
    globbing are stated for stems that are [glob_plain]. *)
Fixpoint fnmatch (pat name : str) : bool :=
  match pat with
  | [] => match name with [] => true | _ :: _ => false end
  | p :: pat' =>
      if p =? 42 then
        (fix star (name : str) : bool :=
           fnmatch pat' name
           || match name with [] => false | _ :: name' => star name' end) name
      else
        match name with
        | [] => false
        | c :: name' => ((p =? 63) || (p =? c)) && fnmatch pat' name'
        end
  end.

(** No [*], [?] or [[] in the string. *)
Definition glob_plain (s : str) : bool :=
  forallb (fun c => negb ((c =? 42) || (c =? 63) || (c =? 91))) s.

(** [dir.glob(pat)] for a pattern of one component: the matching entries,
    in the order the directory lists them. *)
Definition glob {A} (dir : gmap str A) (pat : str) : list str :=
  List.filter (fnmatch pat) (elements (dom dir)).

End PyPath.
Import PyPath.

(** ** JSON values and [json.dump(_, indent=2)] *)

Module Json.

Inductive json : Type :=
  | JNull
  | JStr (s : str)
  | JList (l : list json)
  | JDict (l : list (str * json)).

Definition hex_digit (n : N) : N :=
  if n <? 10 then 48 + n else 87 + n.

(** ['{0:04x}'.format(n)] for [n < 0x10000]. *)
Definition hex4 (n : N) : str :=
  [hex_digit (N.land (N.shiftr n 12) 15); hex_digit (N.land (N.shiftr n 8) 15);
   hex_digit (N.land (N.shiftr n 4) 15); hex_digit (N.land n 15)].

(** The replacement of one character in [py_encode_basestring_ascii]. *)
Definition escape_char (c : N) : str :=
  if c =? 92 then lit "\\"
  else if c =? 34 then [92; 34]
  else if (32 <=? c) && (c <=? 126) then [c]
  else if c =? 8 then lit "\b"
  else if c =? 12 then lit "\f"
  else if c =? 10 then lit "\n"
  else if c =? 13 then lit "\r"
  else if c =? 9 then lit "\t"
  else if c <? 65536 then lit "\u" ++ hex4 c
  else
    let n := c - 65536 in
    let s1 := N.lor 55296 (N.land (N.shiftr n 10) 1023) in
    let s2 := N.lor 56320 (N.land n 1023) in
    lit "\u" ++ hex4 s1 ++ lit "\u" ++ hex4 s2.

Definition encode_string (s : str) : str :=
  [34] ++ concat (List.map escape_char s) ++ [34].

(** [sep.join(parts)] *)
Fixpoint join (sep : str) (parts : list str) : str :=
  match parts with
  | [] => []
  | [p] => p
  | p :: rest => p ++ sep ++ join sep rest
  end.

(** A line feed followed by [2 * level] spaces. *)
Definition newline_indent (level : nat) : str :=
  10 :: repeat 32 (2 * level)%nat.

(** The text of a value at nesting depth [level]. *)
Fixpoint encode (level : nat) (j : json) : str :=
  match j with
  | JNull => lit "null"
  | JStr s => encode_string s
  | JList [] => lit "[]"
  | JList l =>
      lit "[" ++ newline_indent (S level)
      ++ join (lit "," ++ newline_indent (S level)) (List.map (encode (S level)) l)
      ++ newline_indent level ++ lit "]"
  | JDict [] => lit "{}"
  | JDict l =>
      lit "{" ++ newline_indent (S level)
      ++ join (lit "," ++ newline_indent (S level))
           (List.map (fun kv => encode_string (fst kv) ++ lit ": " ++ encode (S level) (snd kv)) l)
      ++ newline_indent level ++ lit "}"
  end.

Definition dumps (j : json) : str := encode 0 j.

(** [d[key]] on a dictionary, [None] for a missing key or another value. *)
Fixpoint assoc (key : str) (l : list (str * json)) : option json :=
  match l with
  | [] => None
  | (k, v) :: l' => if decide (k = key) then Some v else assoc key l'
  end.

Definition jget (key : str) (j : json) : option json :=
  match j with
  | JDict l => assoc key l
  | _ => None
  end.

(** The keys of a dictionary, in insertion order. *)
Definition jkeys (j : json) : list str :=
  match j with
  | JDict l => List.map fst l
  | _ => []
  end.

End Json.
Import Json.

(** ** The state of the working root and the external capabilities *)

Abbreviation bytes := (list N).

(** The result of [run_cmd]: return code, captured stdout and stderr. *)
Definition cmd_result : Type := Z * str * str.

(** One constructor for each [print] of the program. *)
Inductive Event : Type :=
  | WarnNoOcrOutput (input_name : str)
  | Diagnostic (text : str)
  | WarnCouldNotConvert (raw_name : str)
  | IndexWritten (count : nat) (json_name : str)
  | NoPdfsFound
  | OcrCheck (pdf_name : str)
  | WarnFontsDetected
  | RunningOcr
  | OcrOutput (ocr_name : str)
  | ErrorOcrFailed
  | ImagesAndJson (pdf_name : str)
  | WarnNoFonts
  | FontsDetected
  | ErrorNoFolder (folder : str)
  | WarnNoImages (folder : str)
  | ManualIndexWritten (paper_id : str) (json_name : str).

(** The four working directories of [__init__], the folders an operator
    can name besides them (known by their listing), and the printed
    output. *)
Record World : Type := mkWorld {
  input_dir : gmap str bytes;
  ocr_dir : gmap str bytes;
  images_dir : gmap str bytes;
  meta_dir : gmap str str;
  other_dirs : gmap str (gset str);
  stdout : list Event
}.

(** The external programs, each applied to the file names of its command
    line. [pdffonts] reads a document of [input/], which the program never
    writes; [ocrmypdf] acts on [ocr_output/] and [pdfimages] on [images/].
    [reencode] is [Image.open(raw).save(new, format="PNG")] on the bytes of
    the raw file: the bytes of the new file, or [None] when it raises, in
    which case the raw file was refused before the new file was opened. *)
Record Tools : Type := mkTools {
  pdffonts : str -> cmd_result;
  ocrmypdf : str -> str -> gmap str bytes -> cmd_result * gmap str bytes;
  pdfimages : str -> str -> gmap str bytes -> cmd_result * gmap str bytes;
  reencode : bytes -> option bytes
}.

Definition print (e : Event) (w : World) : World :=
  mkWorld (input_dir w) (ocr_dir w) (images_dir w) (meta_dir w) (other_dirs w)
          (stdout w ++ [e]).

Definition set_ocr_dir (d : gmap str bytes) (w : World) : World :=
  mkWorld (input_dir w) d (images_dir w) (meta_dir w) (other_dirs w) (stdout w).

Definition set_images_dir (d : gmap str bytes) (w : World) : World :=
  mkWorld (input_dir w) (ocr_dir w) d (meta_dir w) (other_dirs w) (stdout w).

Definition set_meta_dir (d : gmap str str) (w : World) : World :=
  mkWorld (input_dir w) (ocr_dir w) (images_dir w) d (other_dirs w) (stdout w).

(** ** [PDFProcessor] *)

(** [is_digital_pdf]: the return code and stderr of [pdffonts] are
    dropped. *)
Definition is_digital_pdf (T : Tools) (pdf_name : str) : bool :=
  let '(_, out, _) := pdffonts T pdf_name in
  let lines := splitlines (strip out) in
  (2 <? length lines)%nat.

(** [output_pdf.exists() and output_pdf.stat().st_size > 0] *)
Definition exists_nonempty (dir : gmap str bytes) (name : str) : bool :=
  match dir !! name with
  | Some content => (0 <? length content)%nat
  | None => false
  end.

Definition run_ocr (T : Tools) (input_pdf output_pdf : str) (w : World) : bool * World :=
  let '((code, out, err), ocr') := ocrmypdf T input_pdf output_pdf (ocr_dir w) in
  let w := set_ocr_dir ocr' w in
  let ok := exists_nonempty (ocr_dir w) output_pdf in
  if ok then (true, w)
  else
    let w := print (WarnNoOcrOutput input_pdf) w in
    let w := match strip err with
             | [] => w
             | _ :: _ => print (Diagnostic (strip err)) w
             end in
    (false, w).

(** The pattern [f"{pdf_stem}_RAW_*.png"]. *)
Definition raw_pattern (pdf_stem : str) : str := pdf_stem ++ lit "_RAW_*.png".

(** The name [f"F{idx}.png"]. *)
Definition figure_name (idx : nat) : str := lit "F" ++ str_of_nat idx ++ lit ".png".

(** One entry of [figures]. *)
Definition figure_record (paper : str) (name : str) : json :=
  JDict [(lit "figure_ID", JStr name);
         (lit "caption", JStr []);
         (lit "image_path", JStr (lit "data/research_center/" ++ paper ++ lit "/" ++ name))].

(** The loop over [enumerate(raw_images, start=1)]; [idx] is the number of
    the head of [raws]. Opening a missing or undecodable raw file raises,
    the handler prints the warning and goes on with the next one. *)
Fixpoint convert_loop (T : Tools) (pdf_stem : str) (idx : nat) (raws : list str)
    (figures : list json) (w : World) : list json * World :=
  match raws with
  | [] => (figures, w)
  | raw_img :: rest =>
      let new_name := figure_name idx in
      match images_dir w !! raw_img ≫= reencode T with
      | Some png =>
          let w := set_images_dir (<[new_name := png]> (images_dir w)) w in
          let w := set_images_dir (delete raw_img (images_dir w)) w in
          convert_loop T pdf_stem (S idx) rest
            (figures ++ [figure_record pdf_stem new_name]) w
      | None =>
          convert_loop T pdf_stem (S idx) rest figures
            (print (WarnCouldNotConvert raw_img) w)
      end
  end.

(** [old.unlink()] for each [old] of a list. *)
Definition unlink_all (names : list str) (dir : gmap str bytes) : gmap str bytes :=
  fold_left (fun d old => delete old d) names dir.

(** The images directory once the leftovers of previous runs are
    removed. *)
Definition cleaned_images (pdf_stem : str) (w : World) : gmap str bytes :=
  unlink_all (glob (images_dir w) (raw_pattern pdf_stem)) (images_dir w).

(** The images directory once [pdfimages] has run on the cleaned
    directory. *)
Definition after_pdfimages (T : Tools) (pdf_name pdf_stem : str) (w : World) : gmap str bytes :=
  let raw_prefix := pdf_stem ++ lit "_RAW_" in
  snd (pdfimages T pdf_name raw_prefix (cleaned_images pdf_stem w)).

(** [raw_images] *)
Definition raw_images (T : Tools) (pdf_name pdf_stem : str) (w : World) : list str :=
  sorted (glob (after_pdfimages T pdf_name pdf_stem w) (raw_pattern pdf_stem)).

Definition extract_images (T : Tools) (pdf_name pdf_stem : str) (w : World)
    : list json * World :=
  let w1 := set_images_dir (after_pdfimages T pdf_name pdf_stem w) w in
  convert_loop T pdf_stem 1 (raw_images T pdf_name pdf_stem w) [] w1.

(** The dictionary [result] of [build_index_json]. *)
Definition index_record (paper_id pdf_id : str) (figures : list json) : json :=
  JDict [(lit "paper_ID", JStr paper_id);
         (lit "access", JStr (lit "private"));
         (lit "paper_access", JStr (lit "private"));
         (lit "paper_title", JStr []);
         (lit "authors", JList []);
         (lit "pdf_id", JStr pdf_id);
         (lit "pdf_path", JStr (lit "data/research_center/" ++ paper_id ++ lit "/" ++ pdf_id));
         (lit "year", JNull);
         (lit "journal", JStr []);
         (lit "figures", JList figures);
         (lit "citation", JDict [(lit "APA", JStr [])])].

(** The file name [f"{pdf_stem}_index.JSON"] inside [metadata/]. *)
Definition index_name (paper_id : str) : str := paper_id ++ lit "_index.JSON".

Definition build_index_json (pdf_name pdf_stem : str) (figures : list json) (w : World) : World :=
  let result := index_record pdf_stem pdf_name figures in
  let json_path := index_name pdf_stem in
  let w := set_meta_dir (<[json_path := dumps result]> (meta_dir w)) w in
  print (IndexWritten (length figures) json_path) w.

(** [sorted(self.input_dir.glob("*.pdf"))] *)
Definition input_pdfs (w : World) : list str :=
  sorted (glob (input_dir w) (lit "*.pdf")).

(** The body of the loop of [ocr_only_all]. *)
Definition ocr_one (T : Tools) (w : World) (pdf_name : str) : World :=
  let pdf_stem := stem pdf_name in
  let w := print (OcrCheck pdf_name) w in
  if is_digital_pdf T pdf_name then print WarnFontsDetected w
  else
    let ocr_pdf := pdf_stem ++ lit "_ocr.pdf" in
    let w := print RunningOcr w in
    let '(ok, w) := run_ocr T pdf_name ocr_pdf w in
    if ok then print (OcrOutput ocr_pdf) w else print ErrorOcrFailed w.

Definition ocr_only_all (T : Tools) (w : World) : World :=
  match input_pdfs w with
  | [] => print NoPdfsFound w
  | pdfs => fold_left (ocr_one T) pdfs w
  end.

(** The body of the loop of [extract_images_and_json_all]. *)
Definition extract_one (T : Tools) (w : World) (pdf_name : str) : World :=
  let pdf_stem := stem pdf_name in
  let w := print (ImagesAndJson pdf_name) w in
  if negb (is_digital_pdf T pdf_name) then
    let w := print WarnNoFonts w in
    build_index_json pdf_name pdf_stem [] w
  else
    let w := print FontsDetected w in
    let '(figures, w) := extract_images T pdf_name pdf_stem w in
    build_index_json pdf_name pdf_stem figures w.

Definition extract_images_and_json_all (T : Tools) (w : World) : World :=
  match input_pdfs w with
  | [] => print NoPdfsFound w
  | pdfs => fold_left (extract_one T) pdfs w
  end.

(** ** [ManualImageIndexer] *)

(** The listing of the folder to index: [images/] when no folder is
    given, else the folder of that path, [None] when it does not exist. *)
Definition folder_entries (w : World) (image_folder : option str) : option (list str) :=
  match image_folder with
  | None => Some (elements (dom (images_dir w)))
  | Some path => elements <$> (other_dirs w !! path)
  end.

Definition is_image_suffix (name : str) : bool :=
  let s := lower (suffix name) in
  bool_decide (s = lit ".png") || bool_decide (s = lit ".jpg")
  || bool_decide (s = lit ".jpeg").

Definition folder_label (image_folder : option str) : str :=
  match image_folder with
  | None => lit "images"
  | Some path => path
  end.

(** One entry of [figures] in [build_from_images]. *)
Definition manual_figure_record (paper_id : str) (image_name : str) : json :=
  JDict [(lit "figure_ID", JStr image_name);
         (lit "caption", JStr []);
         (lit "image_path",
          JStr (lit "data/research_center/" ++ paper_id ++ lit "/" ++ image_name))].

(** The dictionary [result] of [build_from_images]. *)
Definition manual_index_record (paper_id : str) (figures : list json) : json :=
  JDict [(lit "paper_ID", JStr paper_id);
         (lit "access", JStr (lit "private"));
         (lit "paper_access", JStr (lit "private"));
         (lit "paper_title", JStr []);
         (lit "authors", JList []);
         (lit "pdf_id", JStr (paper_id ++ lit ".pdf"));
         (lit "pdf_path",
          JStr (lit "data/research_center/" ++ paper_id ++ lit "/" ++ paper_id ++ lit ".pdf"));
         (lit "year", JNull);
         (lit "journal", JStr []);
         (lit "figures", JList figures);
         (lit "citation", JDict [(lit "APA", JStr [])])].

(** [image_files] *)
Definition image_files (entries : list str) : list str :=
  sorted (List.filter is_image_suffix entries).

Definition build_from_images (paper_id : str) (image_folder : option str) (w : World) : World :=
  match folder_entries w image_folder with
  | None => print (ErrorNoFolder (folder_label image_folder)) w
  | Some entries =>
      match image_files entries with
      | [] => print (WarnNoImages (folder_label image_folder)) w
      | _ :: _ =>
          let figures := List.map (manual_figure_record paper_id) (image_files entries) in
          let result := manual_index_record paper_id figures in
          let json_path := index_name paper_id in
          let w := set_meta_dir (<[json_path := dumps result]> (meta_dir w)) w in
          print (ManualIndexWritten paper_id json_path) w
      end
  end.

(** * Properties *)

(** ** Line structure of a text *)

(** The line boundaries of a text, a carriage return followed by a line
    feed counting once. *)
Fixpoint count_breaks (s : str) : nat :=
  match s with
  | [] => 0
  | c :: s' =>
      if is_linebreak c then
        S match s' with
          | d :: s'' =>
              if (c =? 13) && (d =? 10) then count_breaks s'' else count_breaks s'
          | [] => 0
          end
      else count_breaks s'
  end.

(** The last character of a text is not a line boundary. *)
Fixpoint ends_inside_line (s : str) : bool :=
  match s with
  | [] => false
  | [c] => negb (is_linebreak c)
  | _ :: s' => ends_inside_line s'
  end.

Lemma linebreak_is_space c : is_linebreak c = true -> is_space c = true.
Proof.
  unfold is_linebreak, is_space.
  rewrite !orb_true_iff, !andb_true_iff, !N.leb_le, !N.eqb_eq. lia.
Qed.

Lemma lstrip_head s : match lstrip s with [] => True | c :: _ => is_space c = false end.
Proof.
  induction s as [|c s IH]; simpl; [done|].
  destruct (is_space c) eqn:E; [done|]. by rewrite E.
Qed.

Lemma ends_inside_line_snoc s c : ends_inside_line (s ++ [c]) = negb (is_linebreak c).
Proof.
  induction s as [|x s IH]; [done|].
  simpl. destruct (s ++ [c]) eqn:E; [by destruct s|done].
Qed.

(** A stripped text is empty or ends inside a line. *)
Lemma strip_ends_inside_line s : strip s = [] \/ ends_inside_line (strip s) = true.
Proof.
  unfold strip, rstrip.
  pose proof (lstrip_head (rev (lstrip s))) as H.
  destruct (lstrip (rev (lstrip s))) as [|c t]; [by left|right].
  simpl. rewrite ends_inside_line_snoc.
  destruct (is_linebreak c) eqn:E; [|done].
  apply linebreak_is_space in E. congruence.
Qed.

Lemma splitlines_from_cons cur c s :
  splitlines_from cur (c :: s) =
    if is_linebreak c then
      rev cur :: match s with
                 | d :: s'' =>
                     if (c =? 13) && (d =? 10) then splitlines_from [] s''
                     else splitlines_from [] s
                 | [] => []
                 end
    else splitlines_from (c :: cur) s.
Proof. reflexivity. Qed.

Lemma count_breaks_cons c s :
  count_breaks (c :: s) =
    if is_linebreak c then
      S match s with
        | d :: s'' =>
            if (c =? 13) && (d =? 10) then count_breaks s'' else count_breaks s
        | [] => 0%nat
        end
    else count_breaks s.
Proof. reflexivity. Qed.

(** A text that ends inside a line has one line more than boundaries. *)
Lemma splitlines_from_length n : forall s cur,
  (length s <= n)%nat -> ends_inside_line s = true ->
  length (splitlines_from cur s) = S (count_breaks s).
Proof.
  induction n as [|n IH]; intros s cur Hn He.
  { destruct s; [done|simpl in Hn; lia]. }
  destruct s as [|x [|y r]]; [done| |].
  - simpl in *. destruct (is_linebreak x); [done|]. by destruct cur.
  - change (ends_inside_line (x :: y :: r)) with (ends_inside_line (y :: r)) in He.
    simpl in Hn.
    rewrite splitlines_from_cons, count_breaks_cons. cbv beta iota.
    destruct (is_linebreak x) eqn:Ex.
    + destruct ((x =? 13) && (y =? 10)) eqn:Ecr.
      * cbn [length]. f_equal. apply IH; [lia|].
        destruct r as [|z r]; [|done].
        apply andb_prop in Ecr as [_ Ey]. apply N.eqb_eq in Ey. by subst.
      * cbn [length]. f_equal. apply IH; [simpl; lia|done].
    + apply IH; [simpl; lia|done].
Qed.

Lemma splitlines_strip_length s :
  length (splitlines (strip s)) =
    match strip s with [] => 0%nat | _ :: _ => S (count_breaks (strip s)) end.
Proof.
  destruct (strip_ends_inside_line s) as [E|E].
  - by rewrite E.
  - unfold splitlines. rewrite (splitlines_from_length _ _ _ (le_n _) E).
    by destruct (strip s).
Qed.

(** ** Classifier *)

(** The report of the font inspector: the captured stdout. *)
Definition font_report (T : Tools) (pdf_name : str) : str := (pdffonts T pdf_name).1.2.

Lemma is_digital_pdf_unfold T pdf_name :
  is_digital_pdf T pdf_name = (2 <? length (splitlines (strip (font_report T pdf_name))))%nat.
Proof.
  unfold is_digital_pdf, font_report. by destruct (pdffonts T pdf_name) as [[code out] err].
Qed.

(** C1. The classifier answers digital exactly when the stripped font
    report has more than two lines, and scanned when it has at most two;
    a report that is empty once stripped (a failed invocation that printed
    nothing) gives scanned; the return code and stderr play no part: two
    inspectors with the same stdout classify alike. More than two lines is
    the same as at least two line boundaries in the stripped report. *)
Theorem is_digital_pdf_iff_more_than_two_lines (T : Tools) (pdf_name : str) :
  let lines := splitlines (strip (font_report T pdf_name)) in
  (is_digital_pdf T pdf_name = true <-> (2 < length lines)%nat)
  /\ (is_digital_pdf T pdf_name = false <-> (length lines <= 2)%nat)
  /\ (strip (font_report T pdf_name) = [] -> is_digital_pdf T pdf_name = false)
  /\ (forall T', font_report T' pdf_name = font_report T pdf_name ->
        is_digital_pdf T' pdf_name = is_digital_pdf T pdf_name)
  /\ (is_digital_pdf T pdf_name = true <->
        (2 <= count_breaks (strip (font_report T pdf_name)))%nat).
Proof.
  cbv zeta. rewrite is_digital_pdf_unfold.
  repeat split.
  - apply Nat.ltb_lt.
  - apply Nat.ltb_lt.
  - intros H. apply Nat.ltb_ge in H. done.
  - apply Nat.ltb_ge.
  - intros ->. done.
  - intros T' E. by rewrite is_digital_pdf_unfold, E.
  - intros H. apply Nat.ltb_lt in H. rewrite splitlines_strip_length in H.
    destruct (strip (font_report T pdf_name)); simpl in *; lia.
  - intros H. apply Nat.ltb_lt. rewrite splitlines_strip_length.
    destruct (strip (font_report T pdf_name)); simpl in *; lia.
Qed.

(** A font inspector that answers every document with the same result. *)
Definition const_fonts (r : cmd_result) : Tools :=
  mkTools (fun _ => r) (fun _ _ d => ((0%Z, [], []), d))
          (fun _ _ d => ((0%Z, [], []), d)) (fun b => Some b).

(** The two header lines that [pdffonts] prints before the fonts. *)
Definition fonts_header : str :=
  lit "name                 type              encoding   emb sub uni object ID"
  ++ [10] ++ lit "-------------------- ----------------- ---------- --- --- --- ---------"
  ++ [10].

Example header_only_is_scanned :
  is_digital_pdf (const_fonts (0%Z, fonts_header, [])) (lit "P0001.pdf") = false.
Proof. vm_compute. reflexivity. Qed.

Example one_font_is_digital :
  is_digital_pdf
    (const_fonts (0%Z, fonts_header ++ lit "ABCDEF+Times-Roman   Type 1C  yes yes" ++ [10], []))
    (lit "P0001.pdf") = true.
Proof. vm_compute. reflexivity. Qed.

Example failed_inspector_is_scanned :
  is_digital_pdf (const_fonts (1%Z, [], lit "Syntax Error: no PDF header")) (lit "P0001.pdf")
  = false.
Proof. vm_compute. reflexivity. Qed.

Example failed_inspector_with_output_is_digital :
  is_digital_pdf (const_fonts (99%Z, lit "a" ++ [10] ++ lit "b" ++ [13; 10] ++ lit "c", []))
                 (lit "P0001.pdf") = true.
Proof. vm_compute. reflexivity. Qed.

(** ** OCR stage *)

Lemma print_ocr_dir e w : ocr_dir (print e w) = ocr_dir w.
Proof. reflexivity. Qed.

Lemma run_ocr_unfold T input_pdf output_pdf w :
  let ocr' := (ocrmypdf T input_pdf output_pdf (ocr_dir w)).2 in
  (run_ocr T input_pdf output_pdf w).1 = exists_nonempty ocr' output_pdf
  /\ ocr_dir (run_ocr T input_pdf output_pdf w).2 = ocr'.
Proof.
  unfold run_ocr.
  destruct (ocrmypdf T input_pdf output_pdf (ocr_dir w)) as [[[code out] err] ocr'].
  cbn [snd set_ocr_dir ocr_dir].
  destruct (exists_nonempty ocr' output_pdf); [done|].
  split; [done|]. by destruct (strip err).
Qed.

Lemma exists_nonempty_spec dir name :
  exists_nonempty dir name = true <->
  exists content, dir !! name = Some content /\ (0 < length content)%nat.
Proof.
  unfold exists_nonempty. destruct (dir !! name) as [c|].
  - rewrite Nat.ltb_lt. split; [by exists c|]. by intros (c' & [= <-] & H).
  - split; [done|]. by intros (c' & ? & _).
Qed.

(** C2. [run_ocr] returns success exactly when, once the transformer has
    run, the output file exists with a size above zero. The return code,
    stdout and stderr of the transformer have no influence: two
    transformers that leave the same directory give the same answer, and a
    missing or empty output file gives failure whatever the return code. *)
Theorem run_ocr_success_iff_output_nonempty
    (T : Tools) (input_pdf output_pdf : str) (w : World) :
  let ok := (run_ocr T input_pdf output_pdf w).1 in
  let w' := (run_ocr T input_pdf output_pdf w).2 in
  (ok = true <->
     exists content, ocr_dir w' !! output_pdf = Some content /\ (0 < length content)%nat)
  /\ ocr_dir w' = (ocrmypdf T input_pdf output_pdf (ocr_dir w)).2
  /\ (forall T',
        (ocrmypdf T' input_pdf output_pdf (ocr_dir w)).2
        = (ocrmypdf T input_pdf output_pdf (ocr_dir w)).2 ->
        (run_ocr T' input_pdf output_pdf w).1 = ok)
  /\ (ocr_dir w' !! output_pdf = None \/ ocr_dir w' !! output_pdf = Some [] -> ok = false).
Proof.
  cbv zeta.
  destruct (run_ocr_unfold T input_pdf output_pdf w) as [Hok Hdir]. cbv zeta in *.
  rewrite Hok, Hdir. repeat split.
  - apply exists_nonempty_spec.
  - apply exists_nonempty_spec.
  - intros T' E. destruct (run_ocr_unfold T' input_pdf output_pdf w) as [Hok' _].
    cbv zeta in Hok'. by rewrite Hok', E.
  - unfold exists_nonempty. by intros [-> | ->].
Qed.

(** A transformer that returns [code] and leaves [content] (or no file, for
    [None]) at its output path. *)
Definition ocr_writes (code : Z) (content : option bytes) : Tools :=
  mkTools (fun _ => (0%Z, [], []))
          (fun _ output d => ((code, [], lit "  page 1: skipped "),
                              match content with
                              | Some c => <[output := c]> d
                              | None => delete output d
                              end))
          (fun _ _ d => ((0%Z, [], []), d)) (fun b => Some b).

Definition empty_world : World := mkWorld ∅ ∅ ∅ ∅ ∅ [].

Example run_ocr_exit0_empty_file :
  run_ocr (ocr_writes 0 (Some [])) (lit "P1.pdf") (lit "P1_ocr.pdf") empty_world
  = (false,
     mkWorld ∅ {[ lit "P1_ocr.pdf" := [] ]} ∅ ∅ ∅
             [WarnNoOcrOutput (lit "P1.pdf"); Diagnostic (lit "page 1: skipped")]).
Proof. vm_compute. reflexivity. Qed.

Example run_ocr_exit0_missing_file :
  (run_ocr (ocr_writes 0 None) (lit "P1.pdf") (lit "P1_ocr.pdf") empty_world).1 = false.
Proof. vm_compute. reflexivity. Qed.

Example run_ocr_exit1_with_file :
  (run_ocr (ocr_writes 1 (Some [37; 80; 68; 70])) (lit "P1.pdf") (lit "P1_ocr.pdf")
           empty_world).1 = true.
Proof. vm_compute. reflexivity. Qed.

(** ** Globbing and sorting *)

Lemma elem_of_glob {A} (dir : gmap str A) pat n :
  n ∈ glob dir pat <-> is_Some (dir !! n) /\ fnmatch pat n = true.
Proof.
  unfold glob. rewrite list_elem_of_In, filter_In, <- list_elem_of_In.
  by rewrite elem_of_elements, elem_of_dom.
Qed.

Lemma NoDup_glob {A} (dir : gmap str A) pat : NoDup (glob dir pat).
Proof.
  unfold glob. apply NoDup_ListNoDup, List.NoDup_filter, NoDup_ListNoDup, NoDup_elements.
Qed.

Lemma sorted_Permutation l : sorted l ≡ₚ l.
Proof. apply merge_sort_Permutation. Qed.

Lemma elem_of_sorted l n : n ∈ sorted l <-> n ∈ l.
Proof. by rewrite sorted_Permutation. Qed.

Lemma NoDup_sorted l : NoDup l -> NoDup (sorted l).
Proof. by rewrite sorted_Permutation. Qed.

Lemma fnmatch_star pat n :
  fnmatch (42 :: pat) n =
    fnmatch pat n || match n with [] => false | _ :: n' => fnmatch (42 :: pat) n' end.
Proof. by destruct n. Qed.

Lemma fnmatch_star_inv pat n :
  fnmatch (42 :: pat) n = true -> exists a b, n = a ++ b /\ fnmatch pat b = true.
Proof.
  induction n as [|d n IH]; rewrite fnmatch_star; intros H;
    apply orb_prop in H as [H|H]; try done.
  - by exists [], [].
  - by exists [], (d :: n).
  - destruct (IH H) as (a & b & -> & Hb). by exists (d :: a), b.
Qed.

(** A character of the pattern that is not a wildcard occurs in every name
    the pattern matches. *)
Lemma fnmatch_literal pat : forall n c,
  fnmatch pat n = true -> c ∈ pat -> c ≠ 42 -> c ≠ 63 -> c ∈ n.
Proof.
  induction pat as [|p pat IH]; intros n c Hm Hin H42 H63.
  { by apply elem_of_nil in Hin. }
  apply elem_of_cons in Hin.
  destruct (N.eqb_spec p 42) as [->|Hp].
  - destruct Hin as [->|Hin]; [done|].
    apply fnmatch_star_inv in Hm as (a & b & -> & Hb).
    apply elem_of_app. right. by apply IH.
  - simpl in Hm. apply N.eqb_neq in Hp. rewrite Hp in Hm.
    destruct n as [|d n]; [done|].
    apply andb_prop in Hm as [Hd Hm]. apply elem_of_cons.
    destruct Hin as [->|Hin]; [|right; by apply IH].
    left. apply orb_prop in Hd as [Hd|Hd]; apply N.eqb_eq in Hd; congruence.
Qed.

Lemma digits_range u c : c ∈ digits u -> 48 <= c <= 57.
Proof.
  induction u; simpl; intros H; try (by apply elem_of_nil in H);
    apply elem_of_cons in H as [->|H]; auto; lia.
Qed.

(** No underscore in a figure name. *)
Lemma figure_name_no_underscore idx : 95 ∉ figure_name idx.
Proof.
  unfold figure_name, str_of_nat. intros H.
  apply elem_of_app in H as [H|H].
  - vm_compute in H. by repeat (apply elem_of_cons in H as [H|H]; [done|]); apply elem_of_nil in H.
  - apply elem_of_app in H as [H|H].
    + apply digits_range in H. lia.
    + vm_compute in H.
      by repeat (apply elem_of_cons in H as [H|H]; [done|]); apply elem_of_nil in H.
Qed.

(** A name matched by the raw pattern of a stem is not a figure name. *)
Lemma raw_name_not_figure_name pdf_stem n idx :
  fnmatch (raw_pattern pdf_stem) n = true -> n ≠ figure_name idx.
Proof.
  intros Hm ->. apply (figure_name_no_underscore idx).
  apply (fnmatch_literal _ _ 95 Hm); [|done|done].
  unfold raw_pattern. apply elem_of_app. right. vm_compute. apply elem_of_cons. by left.
Qed.

(** ** Image extraction: the conversion loop *)

(** The re-encoding of a raw file of a directory succeeds. *)
Definition converts (T : Tools) (dir : gmap str bytes) (raw : str) : bool :=
  match dir !! raw ≫= reencode T with Some _ => true | None => false end.

(** The numbers that [enumerate(raws, start=idx)] gives to the raw files
    that convert, in order. *)
Fixpoint converted (T : Tools) (dir : gmap str bytes) (idx : nat) (raws : list str)
    : list nat :=
  match raws with
  | [] => []
  | raw :: rest =>
      if converts T dir raw then idx :: converted T dir (S idx) rest
      else converted T dir (S idx) rest
  end.

Lemma converted_ext T dir1 dir2 idx raws :
  (forall r, r ∈ raws -> dir1 !! r = dir2 !! r) ->
  converted T dir1 idx raws = converted T dir2 idx raws.
Proof.
  revert idx. induction raws as [|raw rest IH]; intros idx H; [done|].
  simpl. unfold converts. rewrite (H raw) by apply list_elem_of_here.
  rewrite (IH (S idx)); [done|]. intros r Hr. apply H. by apply list_elem_of_further.
Qed.

Lemma converted_range T dir raws : forall idx i,
  i ∈ converted T dir idx raws -> (idx <= i < idx + length raws)%nat.
Proof.
  induction raws as [|raw rest IH]; intros idx i H; simpl in H.
  { by apply elem_of_nil in H. }
  simpl. destruct (converts T dir raw).
  - apply elem_of_cons in H as [->|H]; [lia|]. apply IH in H. lia.
  - apply IH in H. lia.
Qed.

(** The number [i] is given to a raw file that converts exactly when the
    file at position [i - idx] of the list converts. *)
Lemma elem_of_converted T dir raws : forall idx i,
  i ∈ converted T dir idx raws <->
  (idx <= i)%nat /\ exists raw, raws !! (i - idx)%nat = Some raw /\ converts T dir raw = true.
Proof.
  induction raws as [|raw rest IH]; intros idx i; simpl.
  { split; [by intros ?%elem_of_nil|]. by intros (_ & r & ? & _). }
  destruct (decide (i = idx)) as [->|Hne].
  - rewrite Nat.sub_diag. simpl. destruct (converts T dir raw) eqn:E.
    + split; [|intros _; apply list_elem_of_here]. intros _. split; [lia|by exists raw].
    + rewrite IH. split; [lia|]. intros (_ & r & [= <-] & ?). congruence.
  - transitivity (i ∈ converted T dir (S idx) rest).
    { destruct (converts T dir raw); [|done]. rewrite elem_of_cons.
      split; [intros [?|?]; [done|done]|by right]. }
    rewrite IH. split.
    + intros (Hle & r & Hr & Hc). split; [lia|]. exists r. split; [|done].
      replace (i - idx)%nat with (S (i - S idx)) by lia. done.
    + intros (Hle & r & Hr & Hc). split; [lia|]. exists r. split; [|done].
      replace (i - idx)%nat with (S (i - S idx)) in Hr by lia. done.
Qed.


Lemma convert_loop_other_fields T pdf_stem raws : forall idx figs w,
  let w' := (convert_loop T pdf_stem idx raws figs w).2 in
  input_dir w' = input_dir w /\ ocr_dir w' = ocr_dir w
  /\ meta_dir w' = meta_dir w /\ other_dirs w' = other_dirs w.
Proof.
  induction raws as [|raw rest IH]; intros idx figs w; [done|].
  simpl. destruct (images_dir w !! raw ≫= reencode T) as [png|].
  - destruct (IH (S idx) (figs ++ [figure_record pdf_stem (figure_name idx)])
                (set_images_dir (delete raw (<[figure_name idx:=png]> (images_dir w)))
                                (set_images_dir (<[figure_name idx:=png]> (images_dir w)) w)))
      as (? & ? & ? & ?). done.
  - destruct (IH (S idx) figs (print (WarnCouldNotConvert raw) w)) as (? & ? & ? & ?). done.
Qed.

(** The loop leaves alone every file that is neither one of the raw files
    nor a figure name of a number it hands out. *)
Lemma convert_loop_frame T pdf_stem raws : forall idx figs w n,
  n ∉ raws ->
  (forall i, (idx <= i < idx + length raws)%nat -> n ≠ figure_name i) ->
  images_dir (convert_loop T pdf_stem idx raws figs w).2 !! n = images_dir w !! n.
Proof.
  induction raws as [|raw rest IH]; intros idx figs w n Hn HF; [done|].
  apply not_elem_of_cons in Hn as [Hne Hn]. simpl in HF.
  simpl. destruct (images_dir w !! raw ≫= reencode T) as [png|].
  - rewrite IH; [|done|intros i Hi; apply HF; lia]. simpl.
    rewrite lookup_delete_ne by done. apply lookup_insert_ne.
    intros E. apply (HF idx); [lia|done].
  - rewrite IH; [done|done|]. intros i Hi. apply HF. lia.
Qed.


(** The figure records the loop appends: one for each raw file that
    converts, named after the number the file has in the list. *)
Lemma convert_loop_figures T pdf_stem raws : forall idx figs w,
  NoDup raws -> (forall r i, r ∈ raws -> r ≠ figure_name i) ->
  (convert_loop T pdf_stem idx raws figs w).1 =
    figs ++ List.map (fun i => figure_record pdf_stem (figure_name i))
                     (converted T (images_dir w) idx raws).
Proof.
  induction raws as [|raw rest IH]; intros idx figs w Hnd HF.
  { simpl. by rewrite app_nil_r. }
  apply NoDup_cons in Hnd as [Hraw Hnd].
  assert (HF' : forall r i, r ∈ rest -> r ≠ figure_name i).
  { intros r' i Hr'. apply HF. by apply list_elem_of_further. }
  simpl. unfold converts.
  destruct (images_dir w !! raw ≫= reencode T) as [png|] eqn:E.
  - rewrite IH by done. simpl. rewrite <- app_assoc. simpl. do 3 f_equal.
    apply converted_ext. intros r Hr.
    assert (r ≠ raw) by (intros ->; done).
    rewrite lookup_delete_ne by done.
    rewrite lookup_insert_ne; [done|]. intros E'. by apply (HF' r idx).
  - by rewrite IH.
Qed.

(** ** Image extraction: the whole stage *)

Lemma lookup_unlink_all names : forall (dir : gmap str bytes) n,
  unlink_all names dir !! n = if decide (n ∈ names) then None else dir !! n.
Proof.
  unfold unlink_all. induction names as [|x names IH]; intros dir n; cbn [fold_left].
  { destruct (decide (n ∈ [])) as [H|H]; [by apply elem_of_nil in H|done]. }
  rewrite IH. destruct (decide (n = x)) as [->|Hne].
  - rewrite lookup_delete_eq. rewrite (decide_True _ _ (list_elem_of_here x names)).
    by destruct (decide (x ∈ names)).
  - rewrite lookup_delete_ne by done.
    destruct (decide (n ∈ names)) as [H1|H1], (decide (n ∈ x :: names)) as [H2|H2];
      try done.
    + exfalso. apply H2. by apply list_elem_of_further.
    + exfalso. apply elem_of_cons in H2 as [?|?]; done.
Qed.

(** The leftovers are gone before the extractor runs; nothing else is. *)
Lemma lookup_cleaned_images pdf_stem w n :
  cleaned_images pdf_stem w !! n =
    if fnmatch (raw_pattern pdf_stem) n then None else images_dir w !! n.
Proof.
  unfold cleaned_images. rewrite lookup_unlink_all.
  case_decide as H.
  - apply elem_of_glob in H as [_ ->]. done.
  - destruct (fnmatch (raw_pattern pdf_stem) n) eqn:E; [|done].
    destruct (images_dir w !! n) eqn:E'; [|done].
    exfalso. apply H, elem_of_glob. by rewrite E'.
Qed.

Lemma elem_of_raw_images T pdf_name pdf_stem w r :
  r ∈ raw_images T pdf_name pdf_stem w <->
  is_Some (after_pdfimages T pdf_name pdf_stem w !! r)
  /\ fnmatch (raw_pattern pdf_stem) r = true.
Proof. unfold raw_images. by rewrite elem_of_sorted, elem_of_glob. Qed.

Lemma NoDup_raw_images T pdf_name pdf_stem w : NoDup (raw_images T pdf_name pdf_stem w).
Proof. apply NoDup_sorted, NoDup_glob. Qed.

Lemma raw_images_not_figure_name T pdf_name pdf_stem w r i :
  r ∈ raw_images T pdf_name pdf_stem w -> r ≠ figure_name i.
Proof.
  intros [_ H]%elem_of_raw_images. by apply (raw_name_not_figure_name pdf_stem).
Qed.

Lemma digits_inj u v : digits u = digits v -> u = v.
Proof.
  revert v. induction u; intros v H; destruct v; simpl in H; try done;
    injection H as H; f_equal; by apply IHu.
Qed.

Lemma figure_name_inj i j : figure_name i = figure_name j -> i = j.
Proof.
  unfold figure_name, str_of_nat. intros H.
  apply app_inv_head, app_inv_tail, digits_inj in H.
  rewrite <- (Unsigned.of_to i), <- (Unsigned.of_to j). by rewrite H.
Qed.

(** The file of a figure the loop records holds the re-encoded bytes of
    the raw file with that number. *)
Lemma convert_loop_figure_file T pdf_stem raws : forall idx figs w i,
  NoDup raws -> (forall r i, r ∈ raws -> r ≠ figure_name i) ->
  i ∈ converted T (images_dir w) idx raws ->
  exists raw, raws !! (i - idx)%nat = Some raw
    /\ images_dir (convert_loop T pdf_stem idx raws figs w).2 !! figure_name i
       = images_dir w !! raw ≫= reencode T.
Proof.
  induction raws as [|raw rest IH]; intros idx figs w i Hnd HF Hi.
  { by apply elem_of_nil in Hi. }
  apply NoDup_cons in Hnd as [Hraw Hnd].
  assert (HF' : forall r i, r ∈ rest -> r ≠ figure_name i).
  { intros r' i' Hr'. apply HF. by apply list_elem_of_further. }
  assert (Hext : forall png,
    converted T (delete raw (<[figure_name idx:=png]> (images_dir w))) (S idx) rest
    = converted T (images_dir w) (S idx) rest).
  { intros png. apply converted_ext. intros r Hr.
    assert (r ≠ raw) by (intros ->; done).
    rewrite lookup_delete_ne by done.
    rewrite lookup_insert_ne; [done|]. intros E'. by apply (HF' r idx). }
  simpl in Hi |- *. unfold converts in Hi.
  destruct (images_dir w !! raw ≫= reencode T) as [png|] eqn:E.
  - apply elem_of_cons in Hi as [->|Hi].
    + exists raw. rewrite Nat.sub_diag. split; [done|].
      rewrite convert_loop_frame.
      * simpl. rewrite lookup_delete_ne by (apply HF, list_elem_of_here).
        by rewrite lookup_insert_eq.
      * intros Hin. by apply (HF' (figure_name idx) idx).
      * intros j Hj Ej. apply figure_name_inj in Ej. lia.
    + pose proof (converted_range _ _ _ _ _ Hi) as Hrange.
      destruct (IH (S idx) (figs ++ [figure_record pdf_stem (figure_name idx)])
                  (set_images_dir (delete raw (<[figure_name idx:=png]> (images_dir w)))
                     (set_images_dir (<[figure_name idx:=png]> (images_dir w)) w)) i Hnd HF')
        as (r & Hr & Hfile).
      { simpl. by rewrite Hext. }
      exists r. replace (i - idx)%nat with (S (i - S idx)) by lia. split; [done|].
      rewrite Hfile. simpl.
      assert (r ∈ rest) by (by eapply list_elem_of_lookup_2).
      assert (r ≠ raw) by (intros ->; done).
      rewrite lookup_delete_ne by done.
      rewrite lookup_insert_ne; [done|]. intros E'. by apply (HF' r idx).
  - pose proof (converted_range _ _ _ _ _ Hi) as Hrange.
    destruct (IH (S idx) figs (print (WarnCouldNotConvert raw) w) i Hnd HF' Hi)
      as (r & Hr & Hfile).
    exists r. replace (i - idx)%nat with (S (i - S idx)) by lia. done.
Qed.

(** The [figure_ID] of each record of a list. *)
Definition figure_ids (figs : list json) : list (option json) :=
  List.map (jget (lit "figure_ID")) figs.


(** An extractor that writes three raw images of a document, the second
    of them empty, and a codec that rejects an empty file and keeps the
    bytes of any other. *)
Definition three_images : Tools :=
  mkTools (fun _ => (0%Z, fonts_header ++ lit "ABCDEF+Times-Roman", []))
    (fun _ _ d => ((0%Z, [], []), d))
    (fun pdf_name raw_prefix d =>
       ((0%Z, [], []),
        <[raw_prefix ++ lit "-002.png" := pdf_name ++ [2]]>
          (<[raw_prefix ++ lit "-001.png" := []]>
             (<[raw_prefix ++ lit "-000.png" := pdf_name ++ [0]]> d))))
    (fun raw => match raw with [] => None | _ :: _ => Some raw end).

Example extract_three_images :
  extract_images three_images (lit "P1.pdf") (lit "P1") empty_world
  = ([figure_record (lit "P1") (lit "F1.png"); figure_record (lit "P1") (lit "F3.png")],
     mkWorld ∅ ∅
       {[ lit "F1.png" := lit "P1.pdf" ++ [0];
          lit "F3.png" := lit "P1.pdf" ++ [2];
          lit "P1_RAW_-001.png" := [] ]}
       ∅ ∅ [WarnCouldNotConvert (lit "P1_RAW_-001.png")]).
Proof. vm_compute. reflexivity. Qed.




(** *** Raw intermediates *)




(** *** Which files a run touches *)

(** The extractor writes only files whose name starts with the prefix it
    is given. *)
Definition pdfimages_scoped (T : Tools) : Prop :=
  forall pdf_name raw_prefix (d : gmap str bytes) n,
    startswith raw_prefix n = false ->
    (pdfimages T pdf_name raw_prefix d).2 !! n = d !! n.

Lemma startswith_app p x : startswith p (p ++ x) = true.
Proof. induction p as [|c p IH]; [done|]. simpl. by rewrite N.eqb_refl. Qed.

Lemma three_images_scoped : pdfimages_scoped three_images.
Proof.
  intros pdf_name raw_prefix d n Hn. simpl.
  rewrite !lookup_insert_ne; [done| | |];
    intros <-; by rewrite startswith_app in Hn.
Qed.

(** A pattern that starts with plain characters matches only names that
    start with them. *)
Lemma fnmatch_plain_prefix s : forall rest n,
  glob_plain s = true -> fnmatch (s ++ rest) n = true -> startswith s n = true.
Proof.
  induction s as [|c s IH]; intros rest n Hs Hm; [done|].
  simpl in Hs. apply andb_prop in Hs as [Hc Hs].
  apply negb_true_iff in Hc. apply orb_false_elim in Hc as [Hc H91].
  apply orb_false_elim in Hc as [H42 H63].
  simpl in Hm. rewrite H42 in Hm. destruct n as [|d n]; [done|].
  rewrite H63 in Hm. simpl in Hm. apply andb_prop in Hm as [Hd Hm].
  simpl. rewrite Hd. simpl. by apply (IH rest).
Qed.

Lemma glob_plain_app s t : glob_plain (s ++ t) = glob_plain s && glob_plain t.
Proof. unfold glob_plain. apply forallb_app. Qed.

Lemma raw_pattern_prefix pdf_stem n :
  glob_plain pdf_stem = true ->
  fnmatch (raw_pattern pdf_stem) n = true ->
  startswith (pdf_stem ++ lit "_RAW_") n = true.
Proof.
  intros Hs Hm. apply (fnmatch_plain_prefix _ (lit "*.png")).
  - rewrite glob_plain_app, Hs. reflexivity.
  - unfold raw_pattern in Hm. by rewrite <- app_assoc.
Qed.

(** The images directory after document P1, then after document P2 on
    top of it: F1.png and F3.png of P1 are replaced by those of P2. *)
Definition after_P1 : World :=
  (extract_images three_images (lit "P1.pdf") (lit "P1") empty_world).2.

Example extract_second_document :
  images_dir (extract_images three_images (lit "P2.pdf") (lit "P2") after_P1).2
  = {[ lit "F1.png" := lit "P2.pdf" ++ [0];
       lit "F3.png" := lit "P2.pdf" ++ [2];
       lit "P1_RAW_-001.png" := [];
       lit "P2_RAW_-001.png" := [] ]}.
Proof. vm_compute. reflexivity. Qed.

(** C4, as the claim states it, fails: a run for the stem P2 replaces
    F1.png, the file of the first figure of P1, whose name does not carry
    the stem P2. *)
Lemma extract_images_not_scoped_by_stem :
  ~ (forall T pdf_name pdf_stem w n,
       pdfimages_scoped T ->
       images_dir (extract_images T pdf_name pdf_stem w).2 !! n ≠ images_dir w !! n ->
       startswith pdf_stem n = true).
Proof.
  intros H.
  specialize (H three_images (lit "P2.pdf") (lit "P2") after_P1 (lit "F1.png")
                three_images_scoped).
  assert (Hne : images_dir (extract_images three_images (lit "P2.pdf") (lit "P2") after_P1).2
                  !! lit "F1.png" ≠ images_dir after_P1 !! lit "F1.png").
  { rewrite extract_second_document. vm_compute. discriminate. }
  specialize (H Hne). vm_compute in H. discriminate H.
Qed.

(** C4, amended. With an extractor that writes under its prefix only, a
    run changes no file of the images directory other than those whose
    name starts with [{stem}_RAW_] and the files [F{i}.png] for [i] from 1
    to the number of raw images; the other directories are unchanged. The
    files [F{i}.png] carry no stem: the run writes the re-encoded raw image
    number [i] there whatever the file held before. *)
Theorem extract_images_frame (T : Tools) (pdf_name pdf_stem : str) (w : World) :
  glob_plain pdf_stem = true ->
  pdfimages_scoped T ->
  let dir := after_pdfimages T pdf_name pdf_stem w in
  let raws := raw_images T pdf_name pdf_stem w in
  let w' := (extract_images T pdf_name pdf_stem w).2 in
  (forall n, startswith (pdf_stem ++ lit "_RAW_") n = false ->
     (forall i, (1 <= i <= length raws)%nat -> n ≠ figure_name i) ->
     images_dir w' !! n = images_dir w !! n)
  /\ (forall i, i ∈ converted T dir 1 raws ->
        exists raw, raws !! (i - 1)%nat = Some raw
          /\ images_dir w' !! figure_name i = dir !! raw ≫= reencode T)
  /\ input_dir w' = input_dir w /\ ocr_dir w' = ocr_dir w
  /\ meta_dir w' = meta_dir w /\ other_dirs w' = other_dirs w.
Proof.
  intros Hplain Hscoped. cbv zeta. split; [|split].
  - intros n Hn HF. unfold extract_images. rewrite convert_loop_frame.
    + simpl. unfold after_pdfimages. rewrite Hscoped by done.
      rewrite lookup_cleaned_images.
      destruct (fnmatch (raw_pattern pdf_stem) n) eqn:E; [|done].
      apply raw_pattern_prefix in E; [congruence|done].
    + intros [_ Hm]%elem_of_raw_images.
      apply raw_pattern_prefix in Hm; [congruence|done].
    + intros i Hi. apply HF. lia.
  - intros i Hi. unfold extract_images.
    apply (convert_loop_figure_file T pdf_stem _ 1 []
             (set_images_dir (after_pdfimages T pdf_name pdf_stem w) w) i).
    + apply NoDup_raw_images.
    + intros r j Hr. by apply (raw_images_not_figure_name T pdf_name pdf_stem w).
    + done.
  - unfold extract_images.
    destruct (convert_loop_other_fields T pdf_stem (raw_images T pdf_name pdf_stem w) 1 []
                (set_images_dir (after_pdfimages T pdf_name pdf_stem w) w))
      as (? & ? & ? & ?). done.
Qed.

Lemma extract_images_frame_witness :
  images_dir (extract_images three_images (lit "P2.pdf") (lit "P2") after_P1).2
    !! lit "P1_RAW_-001.png"
  = images_dir after_P1 !! lit "P1_RAW_-001.png".
Proof.
  refine (proj1 (extract_images_frame three_images (lit "P2.pdf") (lit "P2") after_P1
                   eq_refl three_images_scoped) (lit "P1_RAW_-001.png") eq_refl _).
  intros i _ E. apply (figure_name_no_underscore i). rewrite <- E.
  vm_compute. do 2 apply list_elem_of_further. apply list_elem_of_here.
Defined.

(** ** Manual indexer *)

#[global] Instance str_le_total : Total str_le.
Proof.
  intros a. unfold str_le. induction a as [|x a IH]; intros b; [by left|].
  destruct b as [|y b]; [by right|]. simpl.
  destruct (N.ltb_spec x y) as [Hxy|Hxy]; [by left|].
  destruct (N.ltb_spec y x) as [Hyx|Hyx]; [by right|].
  assert (x = y) as -> by lia. rewrite N.eqb_refl. simpl. apply IH.
Qed.

Lemma sorted_Sorted l : Sorted str_le (sorted l).
Proof. apply Sorted_merge_sort; apply _. Qed.

Lemma filter_Permutation_bool {A} (f : A -> bool) (l1 l2 : list A) :
  l1 ≡ₚ l2 -> List.filter f l1 ≡ₚ List.filter f l2.
Proof.
  induction 1 as [|x l1 l2 _ IH|x y l|l1 l2 l3 _ IH1 _ IH2]; simpl.
  - done.
  - destruct (f x); [by constructor|done].
  - destruct (f x), (f y); try done. apply perm_swap.
  - by etransitivity.
Qed.

Lemma elem_of_image_files entries n :
  n ∈ image_files entries <-> n ∈ entries /\ is_image_suffix n = true.
Proof.
  unfold image_files. rewrite elem_of_sorted.
  by rewrite list_elem_of_In, filter_In, <- list_elem_of_In.
Qed.

(** The suffix filter: the lowered suffix is one of the three. *)
Lemma is_image_suffix_spec name :
  is_image_suffix name = true <->
  lower (suffix name) ∈ [lit ".png"; lit ".jpg"; lit ".jpeg"].
Proof.
  unfold is_image_suffix. rewrite !orb_true_iff, !bool_decide_eq_true.
  rewrite !elem_of_cons, elem_of_nil. tauto.
Qed.

(** What the manual indexer writes, for a folder that exists and lists
    [entries]. *)
Lemma build_from_images_meta paper_id image_folder w entries :
  folder_entries w image_folder = Some entries ->
  meta_dir (build_from_images paper_id image_folder w) =
    match image_files entries with
    | [] => meta_dir w
    | _ :: _ =>
        <[index_name paper_id :=
            dumps (manual_index_record paper_id
                     (List.map (manual_figure_record paper_id) (image_files entries)))]>
          (meta_dir w)
    end.
Proof.
  intros E. unfold build_from_images. rewrite E.
  by destruct (image_files entries).
Qed.

Lemma build_from_images_meta_none paper_id image_folder w :
  folder_entries w image_folder = None ->
  meta_dir (build_from_images paper_id image_folder w) = meta_dir w.
Proof. intros E. unfold build_from_images. by rewrite E. Qed.

(** The folder of the scenario and a state of the working root with it. *)
Definition scans_entries : list str := [lit "a.png"; lit "B.JPG"; lit "skip.txt"].

Definition scans_world : World :=
  mkWorld ∅ ∅ ∅ ∅ {[ lit "scans" := list_to_set scans_entries ]} [].

Example scans_image_files : image_files scans_entries = [lit "B.JPG"; lit "a.png"].
Proof. vm_compute. reflexivity. Qed.

(** C6, as the claim states it, fails: the two figures come out with
    B.JPG first, since the names are compared by code point and an
    uppercase letter is below every lowercase one. *)
Lemma build_from_images_order_not_a_then_B :
  ~ (meta_dir (build_from_images (lit "P0010") (Some (lit "scans")) scans_world)
       !! index_name (lit "P0010")
     = Some (dumps (manual_index_record (lit "P0010")
                      (List.map (manual_figure_record (lit "P0010"))
                         [lit "a.png"; lit "B.JPG"])))).
Proof. vm_compute. discriminate. Qed.

(** C6, amended. On a folder that lists exactly a.png, B.JPG and skip.txt,
    in whatever order the directory gives them, [build_from_images]
    writes exactly two figure records, B.JPG then a.png: the suffix filter
    compares lowered suffixes with .png, .jpg and .jpeg, the figure_ID is
    the file name as it is, and the names are sorted by code point. *)
Theorem build_from_images_scans_folder :
  (forall entries, entries ≡ₚ scans_entries ->
     image_files entries = [lit "B.JPG"; lit "a.png"])
  /\ meta_dir (build_from_images (lit "P0010") (Some (lit "scans")) scans_world)
       !! index_name (lit "P0010")
     = Some (dumps (manual_index_record (lit "P0010")
                      [manual_figure_record (lit "P0010") (lit "B.JPG");
                       manual_figure_record (lit "P0010") (lit "a.png")]))
  /\ figure_ids [manual_figure_record (lit "P0010") (lit "B.JPG");
                 manual_figure_record (lit "P0010") (lit "a.png")]
     = [Some (JStr (lit "B.JPG")); Some (JStr (lit "a.png"))]
  /\ (forall entries, Sorted str_le (image_files entries))
  /\ (forall entries n,
        n ∈ image_files entries <->
        n ∈ entries /\ lower (suffix n) ∈ [lit ".png"; lit ".jpg"; lit ".jpeg"]).
Proof.
  split; [|split; [|split; [|split]]].
  - intros entries Hp. unfold image_files.
    apply (filter_Permutation_bool is_image_suffix) in Hp.
    change (List.filter is_image_suffix scans_entries)
      with [lit "a.png"; lit "B.JPG"] in Hp.
    symmetry in Hp. apply Permutation_length_2_inv in Hp as [-> | ->];
      vm_compute; reflexivity.
  - vm_compute. reflexivity.
  - reflexivity.
  - intros entries. apply sorted_Sorted.
  - intros entries n. by rewrite elem_of_image_files, is_image_suffix_spec.
Qed.

(** ** Index builder *)

Lemma build_index_json_meta pdf_name pdf_stem figures w :
  meta_dir (build_index_json pdf_name pdf_stem figures w)
  = <[index_name pdf_stem := dumps (index_record pdf_stem pdf_name figures)]> (meta_dir w).
Proof. reflexivity. Qed.

Lemma folder_entries_build_from_images paper_id image_folder w image_folder' :
  folder_entries (build_from_images paper_id image_folder w) image_folder'
  = folder_entries w image_folder'.
Proof.
  unfold build_from_images.
  destruct (folder_entries w image_folder) as [entries|]; [|done].
  by destruct (image_files entries).
Qed.

(** A record like [index_record] with another title: what an index looks
    like once somebody has filled the title in. *)
Definition edited_record (paper_id pdf_id title : str) (figures : list json) : json :=
  JDict [(lit "paper_ID", JStr paper_id);
         (lit "access", JStr (lit "private"));
         (lit "paper_access", JStr (lit "private"));
         (lit "paper_title", JStr title);
         (lit "authors", JList []);
         (lit "pdf_id", JStr pdf_id);
         (lit "pdf_path", JStr (lit "data/research_center/" ++ paper_id ++ lit "/" ++ pdf_id));
         (lit "year", JNull);
         (lit "journal", JStr []);
         (lit "figures", JList figures);
         (lit "citation", JDict [(lit "APA", JStr [])])].

(** C7. [build_index_json] writes the file [{paper_id}_index.JSON] and no
    other; what it writes is the dump of the fresh record, whatever the
    state before, so a file that was there (with an edited title, say) is
    replaced as a whole and its [paper_title] is empty again; a second
    call with the same arguments leaves the metadata directory as the
    first did. The manual indexer writes the same way. *)
Theorem build_index_json_full_replace
    (pdf_name pdf_stem : str) (figures : list json) (w : World) :
  let w1 := build_index_json pdf_name pdf_stem figures w in
  meta_dir w1 !! index_name pdf_stem
    = Some (dumps (index_record pdf_stem pdf_name figures))
  /\ (forall n, n ≠ index_name pdf_stem -> meta_dir w1 !! n = meta_dir w !! n)
  /\ meta_dir (build_index_json pdf_name pdf_stem figures w1) = meta_dir w1
  /\ (forall w0, meta_dir (build_index_json pdf_name pdf_stem figures w0)
                   !! index_name pdf_stem
                 = meta_dir w1 !! index_name pdf_stem)
  /\ jget (lit "paper_title") (index_record pdf_stem pdf_name figures) = Some (JStr [])
  /\ (forall paper_id image_folder,
        let m1 := build_from_images paper_id image_folder w in
        meta_dir (build_from_images paper_id image_folder m1) = meta_dir m1
        /\ (forall n, n ≠ index_name paper_id -> meta_dir m1 !! n = meta_dir w !! n)
        /\ (forall entries, folder_entries w image_folder = Some entries ->
              image_files entries ≠ [] ->
              meta_dir m1 !! index_name paper_id
              = Some (dumps (manual_index_record paper_id
                               (List.map (manual_figure_record paper_id)
                                         (image_files entries)))))).
Proof.
  cbv zeta. rewrite !build_index_json_meta.
  split; [apply lookup_insert_eq|].
  split; [intros n Hn; by apply lookup_insert_ne|].
  split; [apply insert_insert_eq|].
  split; [intros w0; by rewrite build_index_json_meta, !lookup_insert_eq|].
  split; [reflexivity|].
  intros paper_id image_folder.
  destruct (folder_entries w image_folder) as [entries|] eqn:E.
  - assert (E' : folder_entries (build_from_images paper_id image_folder w) image_folder
                 = Some entries) by (by rewrite folder_entries_build_from_images).
    rewrite (build_from_images_meta _ _ _ _ E'), (build_from_images_meta _ _ _ _ E).
    destruct (image_files entries) as [|f fs] eqn:Ei.
    + split; [done|]. split; [done|]. intros ? [= <-]. by rewrite Ei.
    + split; [apply insert_insert_eq|].
      split; [intros n Hn; by apply lookup_insert_ne|].
      intros ? [= <-] _. rewrite Ei. apply lookup_insert_eq.
  - assert (E' : folder_entries (build_from_images paper_id image_folder w) image_folder
                 = None) by (by rewrite folder_entries_build_from_images).
    rewrite (build_from_images_meta_none _ _ _ E'), (build_from_images_meta_none _ _ _ E).
    split; [done|]. split; [done|]. intros ? [=].
Qed.

(** An index with a title filled in by hand is reset by the next build. *)
Example rebuild_resets_title :
  let edited := dumps (edited_record (lit "P1") (lit "P1.pdf") (lit "On Figures") []) in
  let w := mkWorld ∅ ∅ ∅ {[ index_name (lit "P1") := edited ]} ∅ [] in
  meta_dir (build_index_json (lit "P1.pdf") (lit "P1") [] w) !! index_name (lit "P1")
  = Some (dumps (index_record (lit "P1") (lit "P1.pdf") []))
  /\ dumps (index_record (lit "P1") (lit "P1.pdf") []) ≠ edited.
Proof. split; [vm_compute; reflexivity|vm_compute; discriminate]. Qed.

(** ** The two index schemas *)

(** The keys of an index record, in order. *)
Definition index_keys : list str :=
  [lit "paper_ID"; lit "access"; lit "paper_access"; lit "paper_title"; lit "authors";
   lit "pdf_id"; lit "pdf_path"; lit "year"; lit "journal"; lit "figures"; lit "citation"].

(** The keys of a figure record, in order. *)
Definition figure_keys : list str := [lit "figure_ID"; lit "caption"; lit "image_path"].

(** C8. For the same paper ID the file that [build_index_json] writes
    and the file that [build_from_images] writes, both at
    [{paper_id}_index.JSON], are the dumps of two records with the same
    keys in the same order, the same value under every key other than
    pdf_id, pdf_path and figures, and the constants of the schema under
    those; their figure records have the same keys and, for the same file
    name, are equal, so the figures differ only by the names they are
    given. With the PDF named [{paper_id}.pdf] and the same names the two
    records are equal and the two paths leave the same metadata. *)
Theorem index_records_same_schema
    (paper_id pdf_name : str) (auto_figures : list json) (names : list str) (w : World) :
  let auto := index_record paper_id pdf_name auto_figures in
  let manual := manual_index_record paper_id
                  (List.map (manual_figure_record paper_id) names) in
  meta_dir (build_index_json pdf_name paper_id auto_figures w) !! index_name paper_id
    = Some (dumps auto)
  /\ (forall image_folder entries,
        folder_entries w image_folder = Some entries ->
        image_files entries = names -> names ≠ [] ->
        meta_dir (build_from_images paper_id image_folder w) !! index_name paper_id
          = Some (dumps manual)
        /\ (pdf_name = paper_id ++ lit ".pdf" ->
            auto_figures = List.map (figure_record paper_id) names ->
            meta_dir (build_from_images paper_id image_folder w)
            = meta_dir (build_index_json pdf_name paper_id auto_figures w)))
  /\ jkeys auto = index_keys /\ jkeys manual = index_keys
  /\ (forall key, key ∉ [lit "pdf_id"; lit "pdf_path"; lit "figures"] ->
        jget key auto = jget key manual)
  /\ (jget (lit "access") manual = Some (JStr (lit "private"))
      /\ jget (lit "paper_access") manual = Some (JStr (lit "private"))
      /\ jget (lit "paper_title") manual = Some (JStr [])
      /\ jget (lit "authors") manual = Some (JList [])
      /\ jget (lit "year") manual = Some JNull
      /\ jget (lit "journal") manual = Some (JStr [])
      /\ jget (lit "citation") manual = Some (JDict [(lit "APA", JStr [])]))
  /\ (forall name,
        jkeys (figure_record paper_id name) = figure_keys
        /\ figure_record paper_id name = manual_figure_record paper_id name)
  /\ (jget (lit "pdf_id") manual = Some (JStr (paper_id ++ lit ".pdf"))
      /\ jget (lit "pdf_id") auto = Some (JStr pdf_name))
  /\ (pdf_name = paper_id ++ lit ".pdf" ->
      auto_figures = List.map (figure_record paper_id) names ->
      auto = manual).
Proof.
  cbv zeta.
  split. { rewrite build_index_json_meta. apply lookup_insert_eq. }
  split.
  { intros image_folder entries He Hn Hne.
    rewrite (build_from_images_meta _ _ _ _ He), build_index_json_meta, Hn.
    destruct names as [|n ns]; [done|].
    split; [apply lookup_insert_eq|]. by intros -> ->. }
  split; [reflexivity|]. split; [reflexivity|]. split.
  { intros key Hkey. rewrite !not_elem_of_cons in Hkey.
    destruct Hkey as (H1 & H2 & H3 & _).
    unfold index_record, manual_index_record, jget, assoc.
    repeat match goal with
           | |- context [decide (?k = key)] => destruct (decide (k = key)) as [?|?]
           end; congruence. }
  split; [by repeat split|]. split; [by intros name|]. split; [by split|].
  intros -> ->. reflexivity.
Qed.

(** A folder whose figures are those of an extraction: the automatic and
    the manual path leave the same index file. *)
Example same_index_from_both_paths :
  let w := mkWorld ∅ ∅ {[ lit "F1.png" := [1]; lit "F2.png" := [2] ]} ∅ ∅ [] in
  meta_dir (build_from_images (lit "P1") None w)
  = meta_dir (build_index_json (lit "P1.pdf") (lit "P1")
                [figure_record (lit "P1") (lit "F1.png");
                 figure_record (lit "P1") (lit "F2.png")] w).
Proof. vm_compute. reflexivity. Qed.

(** ** Batch operations *)

(** The documents a batch has started on, as its output shows them: the
    names of the [OcrCheck] and [ImagesAndJson] lines, in order. *)
Definition started (log : list Event) : list str :=
  omap (fun e => match e with
                 | OcrCheck n | ImagesAndJson n => Some n
                 | _ => None
                 end) log.

(** The index files a batch reports as written, in order. *)
Definition written (log : list Event) : list str :=
  omap (fun e => match e with
                 | IndexWritten _ n => Some n
                 | _ => None
                 end) log.

Lemma started_app l1 l2 : started (l1 ++ l2) = started l1 ++ started l2.
Proof. apply omap_app. Qed.

Lemma written_app l1 l2 : written (l1 ++ l2) = written l1 ++ written l2.
Proof. apply omap_app. Qed.

Lemma run_ocr_effect T input_pdf output_pdf w :
  let w' := (run_ocr T input_pdf output_pdf w).2 in
  (exists evs, stdout w' = stdout w ++ evs /\ started evs = [] /\ written evs = [])
  /\ input_dir w' = input_dir w /\ images_dir w' = images_dir w
  /\ meta_dir w' = meta_dir w /\ other_dirs w' = other_dirs w.
Proof.
  unfold run_ocr.
  destruct (ocrmypdf T input_pdf output_pdf (ocr_dir w)) as [[[code out] err] ocr'].
  destruct (exists_nonempty _ _); simpl.
  - split; [|done]. exists []. by rewrite app_nil_r.
  - destruct (strip err); simpl; (split; [|done]).
    + by eexists [_].
    + rewrite <- app_assoc. by eexists [_; _].
Qed.

Lemma ocr_one_effect T w pdf_name :
  let w' := ocr_one T w pdf_name in
  (exists evs, stdout w' = stdout w ++ OcrCheck pdf_name :: evs
               /\ started evs = [] /\ written evs = [])
  /\ input_dir w' = input_dir w /\ images_dir w' = images_dir w
  /\ meta_dir w' = meta_dir w /\ other_dirs w' = other_dirs w.
Proof.
  unfold ocr_one. destruct (is_digital_pdf T pdf_name).
  - simpl. split; [|done]. rewrite <- app_assoc. by eexists [_].
  - pose proof (run_ocr_effect T pdf_name (stem pdf_name ++ lit "_ocr.pdf")
                  (print RunningOcr (print (OcrCheck pdf_name) w))) as H.
    cbv zeta in H.
    destruct (run_ocr T pdf_name (stem pdf_name ++ lit "_ocr.pdf")
                (print RunningOcr (print (OcrCheck pdf_name) w))) as [ok w1].
    simpl in H. destruct H as ((evs & Hs & Hst & Hwr) & ? & ? & ? & ?).
    destruct ok; simpl; (split; [|done]); rewrite Hs, <- !app_assoc; simpl;
      eexists (_ :: evs ++ [_]); (split; [done|]);
      unfold started, written in *; simpl; rewrite !omap_app, Hst, Hwr; done.
Qed.

Lemma ocr_fold_effect T pdfs : forall w,
  let w' := fold_left (ocr_one T) pdfs w in
  started (stdout w') = started (stdout w) ++ pdfs
  /\ written (stdout w') = written (stdout w)
  /\ input_dir w' = input_dir w /\ images_dir w' = images_dir w
  /\ meta_dir w' = meta_dir w /\ other_dirs w' = other_dirs w.
Proof.
  induction pdfs as [|p pdfs IH]; intros w; simpl.
  { by rewrite app_nil_r. }
  destruct (IH (ocr_one T w p)) as (Hs & Hw & -> & -> & -> & ->).
  destruct (ocr_one_effect T w p) as ((evs & He & Hst & Hwr) & -> & -> & -> & ->).
  rewrite Hs, Hw, He, started_app, written_app. simpl. rewrite Hst, Hwr.
  rewrite <- app_assoc, app_nil_r. done.
Qed.

Lemma convert_loop_stdout T pdf_stem raws : forall idx figs w,
  exists evs, stdout (convert_loop T pdf_stem idx raws figs w).2 = stdout w ++ evs
              /\ started evs = [] /\ written evs = [].
Proof.
  induction raws as [|raw rest IH]; intros idx figs w; simpl.
  { exists []. by rewrite app_nil_r. }
  destruct (images_dir w !! raw ≫= reencode T) as [png|].
  - edestruct IH as (evs & Hs & Hst & Hwr). exists evs. split; [exact Hs|done].
  - destruct (IH (S idx) figs (print (WarnCouldNotConvert raw) w)) as (evs & -> & Hs & Hw).
    simpl. rewrite <- app_assoc. eexists (_ :: evs). split; [done|].
    split; [exact Hs|exact Hw].
Qed.

Lemma index_name_inj a b : index_name a = index_name b -> a = b.
Proof. unfold index_name. apply app_inv_tail. Qed.

(** What the body of the extract-and-index loop does for one document. *)
Lemma extract_one_effect T w pdf_name :
  let w' := extract_one T w pdf_name in
  (exists evs, stdout w' = stdout w ++ ImagesAndJson pdf_name :: evs
               /\ started evs = [] /\ written evs = [index_name (stem pdf_name)])
  /\ (exists figures,
        meta_dir w' = <[index_name (stem pdf_name) :=
                          dumps (index_record (stem pdf_name) pdf_name figures)]> (meta_dir w)
        /\ (is_digital_pdf T pdf_name = false -> figures = [])
        /\ IndexWritten (length figures) (index_name (stem pdf_name)) ∈ stdout w')
  /\ input_dir w' = input_dir w /\ ocr_dir w' = ocr_dir w /\ other_dirs w' = other_dirs w.
Proof.
  unfold extract_one. destruct (is_digital_pdf T pdf_name); simpl.
  - pose proof (convert_loop_stdout T (stem pdf_name)
                  (raw_images T pdf_name (stem pdf_name)
                     (print FontsDetected (print (ImagesAndJson pdf_name) w))) 1 []
                  (set_images_dir
                     (after_pdfimages T pdf_name (stem pdf_name)
                        (print FontsDetected (print (ImagesAndJson pdf_name) w)))
                     (print FontsDetected (print (ImagesAndJson pdf_name) w))))
      as (evs & Hs & Hst & Hwr).
    pose proof (convert_loop_other_fields T (stem pdf_name)
                  (raw_images T pdf_name (stem pdf_name)
                     (print FontsDetected (print (ImagesAndJson pdf_name) w))) 1 []
                  (set_images_dir
                     (after_pdfimages T pdf_name (stem pdf_name)
                        (print FontsDetected (print (ImagesAndJson pdf_name) w)))
                     (print FontsDetected (print (ImagesAndJson pdf_name) w))))
      as (Hi & Ho & Hm & Hd).
    unfold extract_images.
    destruct (convert_loop _ _ _ _ _ _) as [figures w1]. simpl in *.
    rewrite Hs, Hm, Hi, Ho, Hd, <- !app_assoc. simpl.
    split; [|split; [|done]].
    + eexists (_ :: evs ++ [_]). split; [done|].
      unfold started, written in *. simpl. by rewrite !omap_app, Hst, Hwr.
    + exists figures. split; [done|]. split; [done|].
      rewrite !elem_of_app. right. right. apply elem_of_cons. right.
      rewrite elem_of_app. right. apply list_elem_of_here.
  - rewrite <- !app_assoc. simpl. split; [|split; [|done]].
    + by eexists [_; _].
    + exists []. split; [done|]. split; [done|].
      rewrite elem_of_app. right. do 2 apply list_elem_of_further. apply list_elem_of_here.
Qed.

Lemma extract_fold_effect T pdfs : forall w,
  let w' := fold_left (extract_one T) pdfs w in
  started (stdout w') = started (stdout w) ++ pdfs
  /\ written (stdout w') = written (stdout w) ++ List.map (fun p => index_name (stem p)) pdfs
  /\ input_dir w' = input_dir w /\ ocr_dir w' = ocr_dir w /\ other_dirs w' = other_dirs w.
Proof.
  induction pdfs as [|p pdfs IH]; intros w; simpl.
  { by rewrite !app_nil_r. }
  destruct (IH (extract_one T w p)) as (Hs & Hw & -> & -> & ->).
  destruct (extract_one_effect T w p) as ((evs & He & Hst & Hwr) & _ & -> & -> & ->).
  rewrite Hs, Hw, He, started_app, written_app. simpl. rewrite Hst, Hwr.
  rewrite <- !app_assoc. done.
Qed.


(** *** Stems of the input documents *)

Lemma split_last_dot_no_dot t : 46 ∉ t -> split_last_dot t = None.
Proof.
  induction t as [|c t IH]; intros H; [done|].
  apply not_elem_of_cons in H as [Hc Ht]. simpl. rewrite (IH Ht).
  apply N.eqb_neq in Hc. rewrite N.eqb_sym in Hc. by rewrite Hc.
Qed.

Lemma split_last_dot_app x t :
  46 ∉ t -> split_last_dot (x ++ 46 :: t) = Some (x, 46 :: t).
Proof.
  intros Ht. induction x as [|c x IH]; simpl.
  - by rewrite (split_last_dot_no_dot t Ht).
  - by rewrite IH.
Qed.


Lemma fnmatch_plain_exact s : forall n,
  glob_plain s = true -> fnmatch s n = true -> n = s.
Proof.
  induction s as [|c s IH]; intros n Hs Hm.
  { by destruct n. }
  simpl in Hs. apply andb_prop in Hs as [Hc Hs].
  apply negb_true_iff in Hc. apply orb_false_elim in Hc as [Hc H91].
  apply orb_false_elim in Hc as [H42 H63].
  simpl in Hm. rewrite H42 in Hm. destruct n as [|d n]; [done|].
  rewrite H63 in Hm. simpl in Hm. apply andb_prop in Hm as [Hd Hm].
  apply N.eqb_eq in Hd. subst d. f_equal. by apply IH.
Qed.





(** *** A batch of three documents *)

(** [a.pdf] is digital and has one raster image; [b.pdf] and [c.pdf] are
    scanned. The OCR transformer fails on [b.pdf]: it returns 2, says why
    and writes no file. *)
Definition batch_tools : Tools :=
  mkTools
    (fun pdf_name =>
       if decide (pdf_name = lit "a.pdf")
       then (0%Z, fonts_header ++ lit "ABCDEF+Times-Roman", [])
       else (0%Z, fonts_header, []))
    (fun input output d =>
       if decide (input = lit "b.pdf") then ((2%Z, [], lit "InputFileError"), d)
       else ((0%Z, [], []), <[output := input ++ [1]]> d))
    (fun pdf_name raw_prefix d =>
       ((0%Z, [], []), <[raw_prefix ++ lit "-000.png" := pdf_name ++ [0]]> d))
    (fun raw => Some raw).

Definition batch_world : World :=
  mkWorld {[ lit "c.pdf" := [3]; lit "a.pdf" := [1]; lit "b.pdf" := [2];
             lit "notes.txt" := [4] ]} ∅ ∅ ∅ ∅ [].

Example ocr_batch_goes_on_after_failure :
  ocr_only_all batch_tools batch_world
  = mkWorld (input_dir batch_world) {[ lit "c_ocr.pdf" := lit "c.pdf" ++ [1] ]} ∅ ∅ ∅
      [OcrCheck (lit "a.pdf"); WarnFontsDetected;
       OcrCheck (lit "b.pdf"); RunningOcr; WarnNoOcrOutput (lit "b.pdf");
       Diagnostic (lit "InputFileError"); ErrorOcrFailed;
       OcrCheck (lit "c.pdf"); RunningOcr; OcrOutput (lit "c_ocr.pdf")].
Proof. vm_compute. reflexivity. Qed.

Example extract_batch_indexes_scanned_documents :
  let w' := extract_images_and_json_all batch_tools batch_world in
  meta_dir w'
  = {[ index_name (lit "a") :=
         dumps (index_record (lit "a") (lit "a.pdf")
                  [figure_record (lit "a") (lit "F1.png")]);
       index_name (lit "b") := dumps (index_record (lit "b") (lit "b.pdf") []);
       index_name (lit "c") := dumps (index_record (lit "c") (lit "c.pdf") []) ]}
  /\ stdout w'
     = [ImagesAndJson (lit "a.pdf"); FontsDetected; IndexWritten 1 (lit "a_index.JSON");
        ImagesAndJson (lit "b.pdf"); WarnNoFonts; IndexWritten 0 (lit "b_index.JSON");
        ImagesAndJson (lit "c.pdf"); WarnNoFonts; IndexWritten 0 (lit "c_index.JSON")].
Proof. split; vm_compute; reflexivity. Qed.

Example empty_input_batches :
  ocr_only_all batch_tools empty_world = mkWorld ∅ ∅ ∅ ∅ ∅ [NoPdfsFound]
  /\ extract_images_and_json_all batch_tools empty_world = mkWorld ∅ ∅ ∅ ∅ ∅ [NoPdfsFound].
Proof. split; vm_compute; reflexivity. Qed.

(** The file named [.pdf] is an input document whose stem is [.pdf], the
    stem of [.pdf.pdf] too: the two share one index file. *)
Example dot_pdf_stems :
  fnmatch (lit "*.pdf") (lit ".pdf") = true
  /\ stem (lit ".pdf") = lit ".pdf" /\ stem (lit ".pdf.pdf") = lit ".pdf".
Proof. repeat split. Qed.

(** ** Checks of the string, path and JSON models *)

Example splitlines_ex :
  splitlines (lit "a" ++ [10; 10] ++ lit "b" ++ [13; 10]) = [lit "a"; []; lit "b"].
Proof. reflexivity. Qed.

Example strip_ex : strip ([32; 10] ++ lit "a b" ++ [9; 13; 10]) = lit "a b".
Proof. reflexivity. Qed.

Example sorted_ex :
  sorted [lit "b"; lit "a"; lit "B"; lit "ab"] = [lit "B"; lit "a"; lit "ab"; lit "b"].
Proof. vm_compute. reflexivity. Qed.

Example figure_name_ex : figure_name 12 = lit "F12.png".
Proof. reflexivity. Qed.

Example suffix_ex :
  suffix (lit "B.JPG") = lit ".JPG" /\ suffix (lit ".png") = [] /\ suffix (lit "a.") = []
  /\ suffix (lit "a.tar.gz") = lit ".gz" /\ stem (lit "P0010.pdf") = lit "P0010".
Proof. repeat split. Qed.

Example fnmatch_ex :
  fnmatch (raw_pattern (lit "P1")) (lit "P1_RAW_-000.png") = true
  /\ fnmatch (raw_pattern (lit "P1")) (lit "P10_RAW_-000.png") = false
  /\ fnmatch (raw_pattern (lit "P1")) (lit "P1_RAW_-000.jpg") = false
  /\ fnmatch (lit "*.pdf") (lit "a.PDF") = false.
Proof. repeat split. Qed.

Example dumps_ex :
  dumps (JDict [(lit "a", JList [JStr (lit "x"); JNull]); (lit "b", JDict []);
                (lit "c", JDict [(lit "d", JList [])])])
  = lit "{" ++ [10]
    ++ lit "  " ++ [34] ++ lit "a" ++ [34] ++ lit ": [" ++ [10]
    ++ lit "    " ++ [34] ++ lit "x" ++ [34] ++ lit "," ++ [10]
    ++ lit "    null" ++ [10]
    ++ lit "  ]," ++ [10]
    ++ lit "  " ++ [34] ++ lit "b" ++ [34] ++ lit ": {}," ++ [10]
    ++ lit "  " ++ [34] ++ lit "c" ++ [34] ++ lit ": {" ++ [10]
    ++ lit "    " ++ [34] ++ lit "d" ++ [34] ++ lit ": []" ++ [10]
    ++ lit "  }" ++ [10]
    ++ lit "}".
Proof. vm_compute. reflexivity. Qed.

Example escape_ex :
  encode_string (lit "a\b" ++ [34; 10; 233; 128512])
  = [34] ++ lit "a\\b\" ++ [34] ++ lit "\n\u00e9\ud83d\ude00" ++ [34].
Proof. vm_compute. reflexivity. Qed.

(** * The menu: [check_input.get_int_range] and [main] *)

Module Menu.

(** The exceptions the menu can end with. *)
Inductive Exn : Type :=
  | EOFError
  | UnboundLocalError.

(** The outcome of a call: a value or an exception. *)
Inductive result (A : Type) : Type :=
  | Return (a : A)
  | Raise (e : Exn).
Arguments Return {A} a.
Arguments Raise {A} e.

(** How one turn of the loop of [main] ends: the loop goes round again,
    or [main] is over, by [break] or by an exception. *)
Inductive control : Type :=
  | Continue
  | Done (r : result unit).

(** What the menu itself writes: the prompts of [input] and its own
    [print]s. The lines of the operations it calls go to the [stdout] of
    the state, as before; the two are kept apart. *)
Inductive Line : Type :=
  | Prompt (text : str)
  | PleaseEnterInteger
  | PleaseEnterBetween (low high : Z)
  | MenuHeader
  | MenuOption (n : Z)
  | ErrorBlankPaperId
  | Exiting.

(** [input(prompt)]: the prompt is written, then a line is taken from
    [stdin]; [None] stands for [EOFError]. *)
Definition input (prompt : str) (stdin : list str) (out : list Line)
    : option str * list str * list Line :=
  match stdin with
  | [] => (None, [], out ++ [Prompt prompt])
  | raw :: stdin => (Some raw, stdin, out ++ [Prompt prompt])
  end.

Section WithInt.

(** [int(raw)] on a string: the integer, or [None] for [ValueError]. *)
Variable parse_int : str -> option Z.

(** The loop of [get_int_range]. [value] is the local variable of that
    name: [None] while it is unbound. *)
Fixpoint get_int_range_loop (prompt : str) (low high : Z) (value : option Z)
    (stdin : list str) (out : list Line) : result Z * list str * list Line :=
  match stdin with
  | [] => (Raise EOFError, [], out ++ [Prompt prompt])
  | raw :: stdin =>
      let out := out ++ [Prompt prompt] in
      let '(value, out) :=
        match parse_int raw with
        | Some v => (Some v, out)
        | None => (value, out ++ [PleaseEnterInteger])
        end in
      match value with
      | None => (Raise UnboundLocalError, stdin, out)
      | Some v =>
          if (v <? low)%Z || (v >? high)%Z then
            get_int_range_loop prompt low high (Some v) stdin
              (out ++ [PleaseEnterBetween low high])
          else (Return v, stdin, out)
      end
  end.

Definition get_int_range (prompt : str) (low high : Z) (stdin : list str) (out : list Line)
    : result Z * list str * list Line :=
  get_int_range_loop prompt low high None stdin out.

(** The six lines of the menu. *)
Definition menu_lines : list Line :=
  [MenuHeader; MenuOption 1; MenuOption 2; MenuOption 3; MenuOption 4; MenuOption 5].

Definition choose_prompt : str := lit "Choose an option (1-5): ".
Definition paper_prompt : str := lit "Enter paper ID (e.g., P0010): ".
Definition folder_prompt : str :=
  lit "Image folder (press Enter for default 'images' folder): ".

(** One turn of the loop of [main]. The folder typed at option 3 is the
    folder of that path, the default one for a blank answer. *)
Definition turn (T : Tools) (stdin : list str) (out : list Line) (w : World)
    : control * list str * list Line * World :=
  let out := out ++ menu_lines in
  match get_int_range choose_prompt 1 5 stdin out with
  | (Raise e, stdin, out) => (Done (Raise e), stdin, out, w)
  | (Return choice, stdin, out) =>
      if (choice =? 1)%Z then (Continue, stdin, out, ocr_only_all T w)
      else if (choice =? 2)%Z then (Continue, stdin, out, extract_images_and_json_all T w)
      else if (choice =? 3)%Z then
        match input paper_prompt stdin out with
        | (None, stdin, out) => (Done (Raise EOFError), stdin, out, w)
        | (Some raw, stdin, out) =>
            match strip raw with
            | [] => (Continue, stdin, out ++ [ErrorBlankPaperId], w)
            | paper_id =>
                match input folder_prompt stdin out with
                | (None, stdin, out) => (Done (Raise EOFError), stdin, out, w)
                | (Some raw, stdin, out) =>
                    let image_folder :=
                      match strip raw with
                      | [] => None
                      | folder_str => Some folder_str
                      end in
                    (Continue, stdin, out, build_from_images paper_id image_folder w)
                end
            end
        end
      else if (choice =? 4)%Z then
        (Continue, stdin, out, extract_images_and_json_all T (ocr_only_all T w))
      else if (choice =? 5)%Z then (Done (Return tt), stdin, out ++ [Exiting], w)
      else (Continue, stdin, out, w)
  end.

(** The loop of [main], at most [fuel] times round: [None] when the turns
    are used up. *)
Fixpoint main_loop (T : Tools) (fuel : nat) (stdin : list str) (out : list Line)
    (w : World) : option (result unit) * list str * list Line * World :=
  match fuel with
  | O => (None, stdin, out, w)
  | S fuel =>
      match turn T stdin out w with
      | (Continue, stdin, out, w) => main_loop T fuel stdin out w
      | (Done r, stdin, out, w) => (Some r, stdin, out, w)
      end
  end.

(** [main()] on the lines of its standard input: a turn that goes on has
    read a line, so one turn more than there are lines is enough. *)
Definition main (T : Tools) (stdin : list str) (w : World)
    : option (result unit) * list str * list Line * World :=
  main_loop T (S (length stdin)) stdin [] w.

(** How a run ends and the state it leaves. *)
Definition run (T : Tools) (stdin : list str) (w : World)
    : option (result unit) * World :=
  ((main T stdin w).1.1.1, (main T stdin w).2).

End WithInt.

(** A reading of integers for the examples: a run of ASCII digits.
    ([int] of Python takes more: signs, blanks around, other digits.) *)
Fixpoint digits_value (acc : Z) (s : str) : option Z :=
  match s with
  | [] => Some acc
  | c :: s' =>
      if (48 <=? c) && (c <=? 57) then digits_value (10 * acc + Z.of_N (c - 48)) s'
      else None
  end.

Definition ascii_int (s : str) : option Z :=
  match s with
  | [] => None
  | _ :: _ => digits_value 0 s
  end.

Example get_int_range_ex1 :
  get_int_range ascii_int choose_prompt 1 5 [lit "7"; lit "x"; lit "3"; lit "4"] []
  = (Return 3%Z, [lit "4"],
     [Prompt choose_prompt; PleaseEnterBetween 1 5;
      Prompt choose_prompt; PleaseEnterInteger; PleaseEnterBetween 1 5;
      Prompt choose_prompt]).
Proof. reflexivity. Qed.

Example get_int_range_ex2 :
  get_int_range ascii_int choose_prompt 1 5 [lit "x"; lit "3"] []
  = (Raise UnboundLocalError, [lit "3"], [Prompt choose_prompt; PleaseEnterInteger]).
Proof. reflexivity. Qed.

(** ** Reading a choice *)

Section IntRange.

Variable parse_int : str -> option Z.

(** What is written before a call comes first in what is written after
    it, and plays no part in the rest. *)
Lemma get_int_range_loop_out prompt low high stdin : forall value out,
  get_int_range_loop parse_int prompt low high value stdin out =
    let r := get_int_range_loop parse_int prompt low high value stdin [] in
    (r.1.1, r.1.2, out ++ r.2).
Proof.
  induction stdin as [|raw stdin IH]; intros value out; [done|].
  simpl. destruct (parse_int raw) as [v|].
  - destruct ((v <? low)%Z || (v >? high)%Z); [|done].
    do 2 rewrite (IH _ (_ ++ _)). simpl. by rewrite <- !app_assoc.
  - destruct value as [v|]; [|by rewrite <- app_assoc].
    destruct ((v <? low)%Z || (v >? high)%Z); [|by rewrite <- app_assoc].
    do 2 rewrite (IH _ (_ ++ _)). simpl.
    by rewrite <- !app_assoc.
Qed.

Lemma get_int_range_loop_return prompt low high stdin : forall value out v rest out',
  (forall u, value = Some u -> ~ (low <= u <= high)%Z) ->
  get_int_range_loop parse_int prompt low high value stdin out = (Return v, rest, out') ->
  (low <= v <= high)%Z
  /\ exists pre raw, stdin = pre ++ raw :: rest /\ parse_int raw = Some v
       /\ forall x u, x ∈ pre -> parse_int x = Some u -> ~ (low <= u <= high)%Z.
Proof.
  induction stdin as [|raw stdin IH]; intros value out v rest out' Hinv H; [done|].
  simpl in H. destruct (parse_int raw) as [v0|] eqn:Ep.
  - destruct ((v0 <? low)%Z || (v0 >? high)%Z) eqn:Er.
    + assert (Hout : ~ (low <= v0 <= high)%Z).
      { apply orb_prop in Er as [Er|Er]; [apply Z.ltb_lt in Er|apply Z.gtb_lt in Er]; lia. }
      apply IH in H as (Hv & pre & raw' & -> & Hp & Hpre); [|by intros u [= <-]].
      split; [done|]. exists (raw :: pre), raw'. split; [done|]. split; [done|].
      intros x u [->|Hx]%elem_of_cons Hu; [|by eapply Hpre]. congruence.
    + injection H as <- <- <-. apply orb_false_elim in Er as [E1 E2].
      apply Z.ltb_ge in E1. rewrite Z.gtb_ltb in E2. apply Z.ltb_ge in E2.
      split; [lia|]. exists [], raw. split; [done|]. split; [done|].
      by intros x u ?%elem_of_nil.
  - destruct value as [u0|]; [|done].
    destruct ((u0 <? low)%Z || (u0 >? high)%Z) eqn:Er.
    + apply IH in H as (Hv & pre & raw' & -> & Hp & Hpre); [|done].
      split; [done|]. exists (raw :: pre), raw'. split; [done|]. split; [done|].
      intros x u [->|Hx]%elem_of_cons Hu; [|by eapply Hpre]. congruence.
    + exfalso. apply (Hinv u0); [done|].
      apply orb_false_elim in Er as [E1 E2].
      apply Z.ltb_ge in E1. rewrite Z.gtb_ltb in E2. apply Z.ltb_ge in E2. lia.
Qed.

(** X1. A value that [get_int_range] returns lies between [low] and
    [high]; it is the integer of the last line read, and every integer
    read before it was out of range: the first integer in range is the
    answer. *)
Theorem get_int_range_returns_first_in_range
    (prompt : str) (low high : Z) (stdin : list str) (out : list Line)
    (v : Z) (rest : list str) (out' : list Line) :
  get_int_range parse_int prompt low high stdin out = (Return v, rest, out') ->
  (low <= v <= high)%Z
  /\ exists pre raw, stdin = pre ++ raw :: rest /\ parse_int raw = Some v
       /\ forall x u, x ∈ pre -> parse_int x = Some u -> ~ (low <= u <= high)%Z.
Proof. apply get_int_range_loop_return. by intros u. Qed.

Lemma get_int_range_loop_bound prompt low high stdin : forall u out,
  (get_int_range_loop parse_int prompt low high (Some u) stdin out).1.1
  ≠ Raise UnboundLocalError.
Proof.
  induction stdin as [|raw stdin IH]; intros u out; [done|].
  simpl. destruct (parse_int raw) as [v|].
  - destruct ((v <? low)%Z || (v >? high)%Z); [apply IH|done].
  - destruct ((u <? low)%Z || (u >? high)%Z); [apply IH|done].
Qed.

(** X2. [get_int_range] ends with [UnboundLocalError] exactly when the
    first line it reads is not an integer: the handler of [ValueError]
    prints its message and falls through to the test of [value], which has
    no value yet. On a later line the variable is bound and the error
    cannot happen. *)
Theorem get_int_range_unbound_iff_first_not_integer
    (prompt : str) (low high : Z) (stdin : list str) (out : list Line) :
  (get_int_range parse_int prompt low high stdin out).1.1 = Raise UnboundLocalError
  <-> exists raw rest, stdin = raw :: rest /\ parse_int raw = None.
Proof.
  unfold get_int_range. destruct stdin as [|raw stdin].
  { split; [done|]. by intros (? & ? & ? & _). }
  simpl. destruct (parse_int raw) as [v|] eqn:Ep.
  - split.
    + intros H. exfalso. destruct ((v <? low)%Z || (v >? high)%Z); [|done].
      by apply get_int_range_loop_bound in H.
    + intros (raw' & rest & [= <- <-] & Hn). congruence.
  - split; [|done]. intros _. by exists raw, stdin.
Qed.

Lemma get_int_range_loop_stale prompt low high pre : forall value out x raw rest v,
  parse_int x = Some v -> parse_int raw = None ->
  (get_int_range_loop parse_int prompt low high value (pre ++ x :: raw :: rest) out).1.1
  = (get_int_range_loop parse_int prompt low high value (pre ++ x :: x :: rest) out).1.1.
Proof.
  induction pre as [|y pre IH]; intros value out x raw rest v Hx Hraw.
  - simpl. rewrite Hx, Hraw.
    destruct ((v <? low)%Z || (v >? high)%Z) eqn:Er; [|done].
    by do 2 rewrite (get_int_range_loop_out _ _ _ _ _ (_ ++ _)).
  - simpl. destruct (parse_int y) as [u|].
    + destruct ((u <? low)%Z || (u >? high)%Z); [by eapply IH|done].
    + destruct value as [u|]; [|done].
      destruct ((u <? low)%Z || (u >? high)%Z); [by eapply IH|done].
Qed.

(** X3. A line that is not an integer, read after an integer, stands
    for that integer once more: [value] still holds it when the range is
    tested. The call ends the same way as if the integer had been typed
    twice. *)
Theorem get_int_range_non_integer_repeats_last
    (prompt : str) (low high : Z) (pre : list str) (x raw : str) (rest : list str)
    (out : list Line) (v : Z) :
  parse_int x = Some v -> parse_int raw = None ->
  (get_int_range parse_int prompt low high (pre ++ x :: raw :: rest) out).1.1
  = (get_int_range parse_int prompt low high (pre ++ x :: x :: rest) out).1.1.
Proof. apply get_int_range_loop_stale. Qed.

End IntRange.

Lemma get_int_range_returns_first_in_range_witness :
  (1 <= 3 <= 5)%Z
  /\ exists pre raw, [lit "7"; lit "x"; lit "3"; lit "4"] = pre ++ raw :: [lit "4"]
       /\ ascii_int raw = Some 3%Z
       /\ forall x u, x ∈ pre -> ascii_int x = Some u -> ~ (1 <= u <= 5)%Z.
Proof.
  exact (get_int_range_returns_first_in_range ascii_int choose_prompt 1 5
           [lit "7"; lit "x"; lit "3"; lit "4"] [] 3 [lit "4"] _ eq_refl).
Defined.

Lemma get_int_range_non_integer_repeats_last_witness :
  (get_int_range ascii_int choose_prompt 1 5 ([] ++ lit "7" :: lit "x" :: [lit "3"]) []).1.1
  = (get_int_range ascii_int choose_prompt 1 5 ([] ++ lit "7" :: lit "7" :: [lit "3"]) []).1.1.
Proof.
  exact (get_int_range_non_integer_repeats_last ascii_int choose_prompt 1 5
           [] (lit "7") (lit "x") [lit "3"] [] 7 eq_refl eq_refl).
Defined.

(** ** The loop of [main] *)

Section MainLoop.

Variable parse_int : str -> option Z.
Variable T : Tools.

Lemma get_int_range_loop_suffix prompt low high stdin : forall value out r rest out',
  get_int_range_loop parse_int prompt low high value stdin out = (r, rest, out') ->
  exists pre, stdin = pre ++ rest.
Proof.
  induction stdin as [|raw stdin IH]; intros value out r rest out' H.
  { injection H as <- <- <-. by exists []. }
  simpl in H.
  destruct (parse_int raw) as [v|].
  - destruct ((v <? low)%Z || (v >? high)%Z).
    + apply IH in H as [pre ->]. by exists (raw :: pre).
    + injection H as <- <- <-. by exists [raw].
  - destruct value as [v|].
    + destruct ((v <? low)%Z || (v >? high)%Z).
      * apply IH in H as [pre ->]. by exists (raw :: pre).
      * injection H as <- <- <-. by exists [raw].
    + injection H as <- <- <-. by exists [raw].
Qed.

Lemma input_out prompt stdin out :
  input prompt stdin out =
    ((input prompt stdin []).1.1, (input prompt stdin []).1.2,
     out ++ (input prompt stdin []).2).
Proof. by destruct stdin. Qed.

(** What is written before a turn plays no part in it. *)
Lemma turn_out stdin out w :
  turn parse_int T stdin out w =
    let r := turn parse_int T stdin [] w in
    (r.1.1.1, r.1.1.2, out ++ r.1.2, r.2).
Proof.
  unfold turn, get_int_range.
  rewrite (get_int_range_loop_out _ _ _ _ _ _ (out ++ _)).
  rewrite (get_int_range_loop_out _ _ _ _ _ _ ([] ++ _)).
  destruct (get_int_range_loop parse_int choose_prompt 1 5 None stdin [])
    as [[[choice|e] rest] o]; simpl; [|by rewrite <- app_assoc].
  repeat (match goal with |- context [if ?b then _ else _] => destruct b end;
          simpl; rewrite <- ?app_assoc; try done).
  destruct rest as [|raw rest]; simpl; [by rewrite <- !app_assoc|].
  destruct (strip raw); simpl; [by rewrite <- !app_assoc|].
  destruct rest as [|raw' rest]; simpl; by rewrite <- !app_assoc.
Qed.

(** A turn reads its lines from the front of the input; one that goes on
    has read a line, and one that ends [main] by [break] has read a 5. *)
Lemma turn_suffix stdin out w c rest out' w' :
  turn parse_int T stdin out w = (c, rest, out', w') ->
  exists pre, stdin = pre ++ rest
    /\ (c = Continue -> pre ≠ [])
    /\ (c = Done (Return tt) -> exists raw, raw ∈ pre /\ parse_int raw = Some 5%Z).
Proof.
  unfold turn, get_int_range.
  destruct (get_int_range_loop parse_int choose_prompt 1 5 None stdin (out ++ menu_lines))
    as [[[choice|e] rest0] o] eqn:E.
  - pose proof E as E'.
    apply get_int_range_loop_return in E' as (_ & pre & raw & -> & Hraw & _); [|done].
    assert (Hne : pre ++ [raw] ≠ []) by (by destruct pre).
    assert (Hcons : forall l, pre ++ raw :: l = (pre ++ [raw]) ++ l).
    { intros l. by rewrite <- app_assoc. }
    destruct (choice =? 1)%Z.
    { injection 1 as <- <- <- <-. exists (pre ++ [raw]).
      split; [apply Hcons|]. split; [|done]. intros _. apply Hne. }
    destruct (choice =? 2)%Z.
    { injection 1 as <- <- <- <-. exists (pre ++ [raw]).
      split; [apply Hcons|]. split; [|done]. intros _. apply Hne. }
    destruct (choice =? 3)%Z.
    { destruct rest0 as [|r1 rest1]; simpl.
      { injection 1 as <- <- <- <-. exists (pre ++ [raw]).
        split; [apply Hcons|split; done]. }
      destruct (strip r1).
      { injection 1 as <- <- <- <-. exists ((pre ++ [raw]) ++ [r1]).
        split; [by rewrite Hcons, <- !app_assoc|]. split; [|done].
        intros _. by destruct pre. }
      destruct rest1 as [|r2 rest2]; simpl.
      { injection 1 as <- <- <- <-. exists ((pre ++ [raw]) ++ [r1]).
        split; [by rewrite Hcons, <- !app_assoc|split; done]. }
      injection 1 as <- <- <- <-. exists ((pre ++ [raw]) ++ [r1; r2]).
      split; [by rewrite Hcons, <- !app_assoc|]. split; [|done].
      intros _. by destruct pre. }
    destruct (choice =? 4)%Z.
    { injection 1 as <- <- <- <-. exists (pre ++ [raw]).
      split; [apply Hcons|]. split; [|done]. intros _. apply Hne. }
    destruct (choice =? 5)%Z eqn:E5.
    { injection 1 as <- <- <- <-. exists (pre ++ [raw]).
      split; [apply Hcons|]. split; [done|]. intros _. exists raw.
      apply Z.eqb_eq in E5. subst choice. split; [|done].
      apply elem_of_app. right. apply list_elem_of_here. }
    injection 1 as <- <- <- <-. exists (pre ++ [raw]).
    split; [apply Hcons|]. split; [|done]. intros _. apply Hne.
  - apply get_int_range_loop_suffix in E as [pre ->].
    injection 1 as <- <- <- <-. exists pre. split; [done|split; done].
Qed.

(** With more turns than lines the loop ends, and the way it ends and
    the state it leaves depend on neither the number of turns nor on what
    was written before. *)
Lemma main_loop_enough fuel : forall stdin out w fuel' out',
  (length stdin < fuel)%nat -> (length stdin < fuel')%nat ->
  (main_loop parse_int T fuel stdin out w).1.1.1
    = (main_loop parse_int T fuel' stdin out' w).1.1.1
  /\ (main_loop parse_int T fuel stdin out w).2
     = (main_loop parse_int T fuel' stdin out' w).2
  /\ (main_loop parse_int T fuel stdin out w).1.1.1 ≠ None.
Proof.
  induction fuel as [|fuel IH]; intros stdin out w fuel' out' Hf Hf'; [lia|].
  destruct fuel' as [|fuel']; [lia|].
  simpl. rewrite (turn_out stdin out), (turn_out stdin out').
  destruct (turn parse_int T stdin [] w) as [[[c rest] o] w'] eqn:E. simpl.
  destruct c as [|r]; [|done].
  apply turn_suffix in E as (pre & -> & Hpre & _).
  specialize (Hpre eq_refl). rewrite length_app in Hf, Hf'.
  assert (0 < length pre)%nat by (destruct pre; [done|simpl; lia]).
  apply IH; lia.
Qed.

Lemma run_continue stdin w rest out' w' :
  turn parse_int T stdin [] w = (Continue, rest, out', w') ->
  run parse_int T stdin w = run parse_int T rest w'.
Proof.
  intros E. unfold run, main. cbn [main_loop]. rewrite E.
  pose proof E as (pre & -> & Hpre & _)%turn_suffix. specialize (Hpre eq_refl).
  assert (0 < length pre)%nat by (destruct pre; [done|simpl; lia]).
  destruct (main_loop_enough (length (pre ++ rest)) rest out' w' (S (length rest)) [])
    as (-> & -> & _); [rewrite length_app; lia|lia|done].
Qed.

Lemma run_done stdin w r rest out' w' :
  turn parse_int T stdin [] w = (Done r, rest, out', w') ->
  run parse_int T stdin w = (Some r, w').
Proof. intros E. unfold run, main. cbn [main_loop]. by rewrite E. Qed.

(** The answer of a line at the menu is one of the batch options. *)
Definition is_batch_choice (raw : str) : bool :=
  match parse_int raw with
  | Some v => (v =? 1)%Z || (v =? 2)%Z || (v =? 4)%Z
  | None => false
  end.

(** What the batch option of a line does to the state. *)
Definition batch_choice (w : World) (raw : str) : World :=
  match parse_int raw with
  | Some 1%Z => ocr_only_all T w
  | Some 2%Z => extract_images_and_json_all T w
  | Some 4%Z => extract_images_and_json_all T (ocr_only_all T w)
  | _ => w
  end.

Lemma turn_batch_choice c stdin w :
  is_batch_choice c = true ->
  exists out', turn parse_int T (c :: stdin) [] w = (Continue, stdin, out', batch_choice w c).
Proof.
  unfold is_batch_choice, batch_choice, turn, get_int_range. simpl.
  destruct (parse_int c) as [v|]; [|done]. intros H.
  apply orb_prop in H as [H|H]; [apply orb_prop in H as [H|H]|];
    apply Z.eqb_eq in H; subst v; simpl; by eexists.
Qed.

Lemma run_batch_choices cs : forall stdin w,
  forallb is_batch_choice cs = true ->
  run parse_int T (cs ++ stdin) w = run parse_int T stdin (fold_left batch_choice cs w).
Proof.
  induction cs as [|c cs IH]; intros stdin w H; [done|].
  simpl in H. apply andb_prop in H as [Hc Hcs].
  destruct (turn_batch_choice c (cs ++ stdin) w Hc) as [out' E].
  simpl. rewrite (run_continue _ _ _ _ _ E). by apply IH.
Qed.

(** X4. The batch options compose from left to right: a run that starts
    with answers among 1, 2 and 4 goes on as a run on the remaining lines
    from the state the batches leave, one after the other. Option 4 is
    option 1 followed by option 2. *)
Theorem main_batch_choices_compose (cs stdin : list str) (w : World) :
  forallb is_batch_choice cs = true ->
  run parse_int T (cs ++ stdin) w = run parse_int T stdin (fold_left batch_choice cs w)
  /\ (forall c1 c2 c4, parse_int c1 = Some 1%Z -> parse_int c2 = Some 2%Z ->
        parse_int c4 = Some 4%Z ->
        run parse_int T (c4 :: stdin) w = run parse_int T (c1 :: c2 :: stdin) w).
Proof.
  intros H. split; [by apply run_batch_choices|].
  intros c1 c2 c4 H1 H2 H4.
  pose proof (run_batch_choices [c4] stdin w) as E4.
  pose proof (run_batch_choices [c1; c2] stdin w) as E12.
  cbn [app fold_left forallb] in E4, E12. unfold is_batch_choice, batch_choice in E4, E12.
  rewrite H4 in E4. rewrite H1, H2 in E12.
  by rewrite E4, E12.
Qed.


(** X6. Option 3 with a paper ID that is blank once stripped changes
    nothing and does not ask for the folder: the next line is the next
    answer at the menu. With a paper ID and a folder line the manual
    indexer runs on the stripped ID and on the folder typed, or on the
    default folder for a blank line. *)
Theorem main_option_3 (c3 id_line : str) (stdin : list str) (w : World) :
  parse_int c3 = Some 3%Z ->
  (strip id_line = [] ->
     run parse_int T (c3 :: id_line :: stdin) w = run parse_int T stdin w)
  /\ (strip id_line ≠ [] ->
      forall folder_line,
        run parse_int T (c3 :: id_line :: folder_line :: stdin) w
        = run parse_int T stdin
            (build_from_images (strip id_line)
               (match strip folder_line with [] => None | f => Some f end) w))
  /\ (strip id_line ≠ [] ->
      run parse_int T [c3; id_line] w = (Some (Raise EOFError), w)).
Proof.
  intros H3. split; [|split].
  - intros Hid. eapply run_continue. unfold turn, get_int_range. simpl.
    rewrite H3. simpl. by rewrite Hid.
  - intros Hid folder_line. eapply run_continue. unfold turn, get_int_range. simpl.
    rewrite H3. simpl. destruct (strip id_line) as [|a l] eqn:E; [done|].
    by destruct (strip folder_line).
  - intros Hid. eapply run_done. unfold turn, get_int_range. simpl.
    rewrite H3. simpl. by destruct (strip id_line).
Qed.

Lemma main_loop_return fuel : forall stdin out w,
  (main_loop parse_int T fuel stdin out w).1.1.1 = Some (Return tt) ->
  exists raw, raw ∈ stdin /\ parse_int raw = Some 5%Z.
Proof.
  induction fuel as [|fuel IH]; intros stdin out w H; [done|].
  simpl in H. destruct (turn parse_int T stdin out w) as [[[c rest] o] w'] eqn:E.
  apply turn_suffix in E as (pre & -> & _ & Hdone).
  destruct c as [|r].
  - apply IH in H as (raw & Hraw & H5). exists raw. split; [|done].
    apply elem_of_app. by right.
  - simpl in H. injection H as ->. destruct (Hdone eq_refl) as (raw & Hraw & H5).
    exists raw. split; [|done]. apply elem_of_app. by left.
Qed.

(** X7. [main] comes to an end on every input. It returns only after an
    answer 5 was read; on an input without one it ends with an
    exception. *)
Theorem main_ends_only_by_5 (stdin : list str) (w : World) :
  (run parse_int T stdin w).1 ≠ None
  /\ ((run parse_int T stdin w).1 = Some (Return tt) ->
      exists raw, raw ∈ stdin /\ parse_int raw = Some 5%Z)
  /\ ((forall raw, raw ∈ stdin -> parse_int raw ≠ Some 5%Z) ->
      exists e, (run parse_int T stdin w).1 = Some (Raise e)).
Proof.
  assert (Hn : (run parse_int T stdin w).1 ≠ None).
  { by destruct (main_loop_enough (S (length stdin)) stdin [] w (S (length stdin)) [])
      as (_ & _ & ?); [lia|lia|]. }
  assert (Hr : (run parse_int T stdin w).1 = Some (Return tt) ->
               exists raw, raw ∈ stdin /\ parse_int raw = Some 5%Z).
  { apply (main_loop_return (S (length stdin)) stdin [] w). }
  split; [done|]. split; [done|].
  intros Hno. destruct ((run parse_int T stdin w).1) as [[[]|e]|] eqn:E.
  - destruct (Hr eq_refl) as (raw & Hraw & H5). by destruct (Hno raw Hraw).
  - by exists e.
  - done.
Qed.

End MainLoop.

Example main_ex :
  main ascii_int batch_tools [lit "9"; lit "4"; lit "3"; lit " "; lit "5"; lit "1"] batch_world
  = (Some (Return tt), [lit "1"],
     menu_lines ++ [Prompt choose_prompt; PleaseEnterBetween 1 5; Prompt choose_prompt]
     ++ menu_lines ++ [Prompt choose_prompt; Prompt paper_prompt; ErrorBlankPaperId]
     ++ menu_lines ++ [Prompt choose_prompt; Exiting],
     extract_images_and_json_all batch_tools (ocr_only_all batch_tools batch_world)).
Proof. vm_compute. reflexivity. Qed.

Lemma main_batch_choices_compose_witness :
  run ascii_int batch_tools ([lit "1"; lit "2"] ++ [lit "5"]) batch_world
  = run ascii_int batch_tools [lit "5"]
      (fold_left (batch_choice ascii_int batch_tools) [lit "1"; lit "2"] batch_world).
Proof.
  exact (proj1 (main_batch_choices_compose ascii_int batch_tools
                  [lit "1"; lit "2"] [lit "5"] batch_world eq_refl)).
Defined.


Lemma main_option_3_witness :
  run ascii_int batch_tools [lit "3"; lit "  "; lit "5"] batch_world
  = run ascii_int batch_tools [lit "5"] batch_world.
Proof.
  exact (proj1 (main_option_3 ascii_int batch_tools (lit "3") (lit "  ") [lit "5"]
                  batch_world eq_refl) eq_refl).
Defined.

End Menu.

(** * More on the stages *)

(** ** The OCR batch *)






(** ** What the batches leave alone *)

Lemma ocr_only_all_effect T w :
  let w' := ocr_only_all T w in
  input_dir w' = input_dir w /\ images_dir w' = images_dir w
  /\ meta_dir w' = meta_dir w /\ other_dirs w' = other_dirs w.
Proof.
  unfold ocr_only_all. pose proof (ocr_fold_effect T (input_pdfs w) w) as H.
  cbv zeta in H. destruct (input_pdfs w); [done|].
  by destruct H as (_ & _ & ? & ? & ? & ?).
Qed.

Lemma extract_all_effect T w :
  let w' := extract_images_and_json_all T w in
  input_dir w' = input_dir w /\ ocr_dir w' = ocr_dir w /\ other_dirs w' = other_dirs w.
Proof.
  unfold extract_images_and_json_all.
  pose proof (extract_fold_effect T (input_pdfs w) w) as H.
  cbv zeta in H. destruct (input_pdfs w); [done|].
  by destruct H as (_ & _ & ? & ? & ?).
Qed.

(** X9. No batch writes to the input directory. The OCR batch leaves the
    images and the metadata as they are, the extract-and-index batch the
    OCR output. So the combined mode handles in its second half the very
    documents of its first half, in the same order. *)
Theorem batches_leave_input_alone (T : Tools) (w : World) :
  let w1 := ocr_only_all T w in
  let w2 := extract_images_and_json_all T w in
  (input_dir w1 = input_dir w /\ images_dir w1 = images_dir w /\ meta_dir w1 = meta_dir w)
  /\ (input_dir w2 = input_dir w /\ ocr_dir w2 = ocr_dir w)
  /\ input_pdfs w1 = input_pdfs w /\ input_pdfs w2 = input_pdfs w
  /\ started (stdout (extract_images_and_json_all T w1))
     = started (stdout w) ++ input_pdfs w ++ input_pdfs w.
Proof.
  cbv zeta.
  destruct (ocr_only_all_effect T w) as (Hi1 & Him1 & Hm1 & _).
  destruct (extract_all_effect T w) as (Hi2 & Ho2 & _).
  assert (Hp1 : input_pdfs (ocr_only_all T w) = input_pdfs w).
  { unfold input_pdfs. by rewrite Hi1. }
  assert (Hp2 : input_pdfs (extract_images_and_json_all T w) = input_pdfs w).
  { unfold input_pdfs. by rewrite Hi2. }
  repeat split; try done.
  assert (Hs1 : started (stdout (ocr_only_all T w)) = started (stdout w) ++ input_pdfs w).
  { unfold ocr_only_all. pose proof (ocr_fold_effect T (input_pdfs w) w) as H.
    cbv zeta in H. destruct (input_pdfs w) eqn:E.
    - simpl. rewrite started_app. simpl. by rewrite !app_nil_r.
    - by destruct H as (-> & _). }
  assert (Hs2 : forall w0, started (stdout (extract_images_and_json_all T w0))
                           = started (stdout w0) ++ input_pdfs w0).
  { intros w0. unfold extract_images_and_json_all.
    pose proof (extract_fold_effect T (input_pdfs w0) w0) as H.
    cbv zeta in H. destruct (input_pdfs w0) eqn:E.
    - simpl. rewrite started_app. simpl. by rewrite !app_nil_r.
    - by destruct H as (-> & _). }
  by rewrite Hs2, Hs1, Hp1, <- app_assoc.
Qed.

(** ** The figures of a run *)

Lemma extract_images_figures T pdf_name pdf_stem w :
  (extract_images T pdf_name pdf_stem w).1
  = List.map (fun i => figure_record pdf_stem (figure_name i))
      (converted T (after_pdfimages T pdf_name pdf_stem w) 1
         (raw_images T pdf_name pdf_stem w)).
Proof.
  unfold extract_images. rewrite convert_loop_figures; [done| |].
  - apply NoDup_raw_images.
  - intros r i Hr. by apply (raw_images_not_figure_name T pdf_name pdf_stem w).
Qed.

Lemma converted_length T dir raws : forall idx,
  length (converted T dir idx raws) = length (List.filter (converts T dir) raws).
Proof.
  induction raws as [|raw rest IH]; intros idx; [done|].
  simpl. destruct (converts T dir raw); simpl; by rewrite IH.
Qed.

Lemma NoDup_converted T dir raws : forall idx, NoDup (converted T dir idx raws).
Proof.
  induction raws as [|raw rest IH]; intros idx; simpl; [constructor|].
  destruct (converts T dir raw); [|apply IH].
  constructor; [|apply IH]. intros H%converted_range. lia.
Qed.

(** X10. The figures of a run have pairwise distinct figure_IDs, and
    there are as many of them as raw images that convert, so at most as
    many as raw images. *)
Theorem extract_images_figures_distinct
    (T : Tools) (pdf_name pdf_stem : str) (w : World) :
  glob_plain pdf_stem = true ->
  let dir := after_pdfimages T pdf_name pdf_stem w in
  let raws := raw_images T pdf_name pdf_stem w in
  let figs := (extract_images T pdf_name pdf_stem w).1 in
  NoDup (figure_ids figs)
  /\ length figs = length (List.filter (converts T dir) raws)
  /\ (length figs <= length raws)%nat.
Proof.
  intros _. cbv zeta. rewrite extract_images_figures. split; [|split].
  - unfold figure_ids. rewrite List.map_map.
    assert (Hinj : Inj eq eq (fun i => Some (JStr (figure_name i)))).
    { intros i j E. apply figure_name_inj. congruence. }
    apply (NoDup_fmap_2 _), NoDup_converted.
  - by rewrite length_map, converted_length.
  - rewrite length_map, converted_length. apply List.filter_length_le.
Qed.

Lemma extract_images_figures_distinct_witness :
  NoDup (figure_ids (extract_images three_images (lit "P1.pdf") (lit "P1") empty_world).1).
Proof.
  exact (proj1 (extract_images_figures_distinct
                  three_images (lit "P1.pdf") (lit "P1") empty_world eq_refl)).
Defined.

(** X11. Every figure a run returns has its file: the images directory
    holds, under the figure_ID, the re-encoded bytes of a raw image the
    extractor wrote. *)
Theorem extract_images_figures_have_files
    (T : Tools) (pdf_name pdf_stem : str) (w : World) (fig : json) :
  glob_plain pdf_stem = true ->
  fig ∈ (extract_images T pdf_name pdf_stem w).1 ->
  exists i raw content png,
    fig = figure_record pdf_stem (figure_name i)
    /\ after_pdfimages T pdf_name pdf_stem w !! raw = Some content
    /\ reencode T content = Some png
    /\ images_dir (extract_images T pdf_name pdf_stem w).2 !! figure_name i = Some png.
Proof.
  intros _. rewrite extract_images_figures, list_elem_of_In, in_map_iff.
  intros (i & <- & Hi%list_elem_of_In).
  pose proof Hi as (_ & raw & Hraw & Hconv)%elem_of_converted.
  destruct (convert_loop_figure_file T pdf_stem (raw_images T pdf_name pdf_stem w) 1 []
              (set_images_dir (after_pdfimages T pdf_name pdf_stem w) w) i)
    as (raw' & Hraw' & Hfile).
  - apply NoDup_raw_images.
  - intros r j Hr. by apply (raw_images_not_figure_name T pdf_name pdf_stem w).
  - done.
  - rewrite Hraw in Hraw'. injection Hraw' as <-.
    unfold converts in Hconv. simpl in Hfile.
    destruct (after_pdfimages T pdf_name pdf_stem w !! raw) as [content|] eqn:Ec; [|done].
    simpl in Hconv, Hfile. destruct (reencode T content) as [png|] eqn:Ep; [|done].
    by exists i, raw, content, png.
Qed.

Lemma extract_images_figures_have_files_witness :
  exists i raw content png,
    figure_record (lit "P1") (lit "F3.png") = figure_record (lit "P1") (figure_name i)
    /\ after_pdfimages three_images (lit "P1.pdf") (lit "P1") empty_world !! raw = Some content
    /\ reencode three_images content = Some png
    /\ images_dir (extract_images three_images (lit "P1.pdf") (lit "P1") empty_world).2
         !! figure_name i = Some png.
Proof.
  refine (extract_images_figures_have_files three_images (lit "P1.pdf") (lit "P1")
            empty_world (figure_record (lit "P1") (lit "F3.png")) eq_refl _).
  rewrite extract_three_images. apply list_elem_of_further, list_elem_of_here.
Defined.

(** X12. When the extractor writes nothing the run returns no figure and
    prints nothing; the images directory is left as it was but for the
    leftovers of the stem, which are gone. *)
Theorem extract_images_nothing_extracted
    (T : Tools) (pdf_name pdf_stem : str) (w : World) :
  glob_plain pdf_stem = true ->
  (pdfimages T pdf_name (pdf_stem ++ lit "_RAW_") (cleaned_images pdf_stem w)).2
    = cleaned_images pdf_stem w ->
  extract_images T pdf_name pdf_stem w
    = ([], set_images_dir (cleaned_images pdf_stem w) w)
  /\ (forall n, images_dir (extract_images T pdf_name pdf_stem w).2 !! n
        = if fnmatch (raw_pattern pdf_stem) n then None else images_dir w !! n).
Proof.
  intros _ Hnothing.
  assert (Ha : after_pdfimages T pdf_name pdf_stem w = cleaned_images pdf_stem w).
  { unfold after_pdfimages. exact Hnothing. }
  assert (Hr : raw_images T pdf_name pdf_stem w = []).
  { apply elem_of_nil_inv. intros r [Hs Hm]%elem_of_raw_images.
    rewrite Ha, lookup_cleaned_images, Hm in Hs. by destruct Hs. }
  assert (E : extract_images T pdf_name pdf_stem w
              = ([], set_images_dir (cleaned_images pdf_stem w) w)).
  { unfold extract_images. by rewrite Hr, Ha. }
  split; [done|]. intros n. rewrite E. simpl. apply lookup_cleaned_images.
Qed.

Lemma extract_images_nothing_extracted_witness :
  extract_images (ocr_writes 0 None) (lit "P1.pdf") (lit "P1") after_P1
  = ([], set_images_dir (cleaned_images (lit "P1") after_P1) after_P1).
Proof.
  exact (proj1 (extract_images_nothing_extracted (ocr_writes 0 None) (lit "P1.pdf")
                  (lit "P1") after_P1 eq_refl eq_refl)).
Defined.

(** ** Index files of different papers *)

(** X13. The index files of two papers with different IDs do not
    disturb each other: after both are built, in either order, each file
    holds the record of its own paper, and the metadata directory is the
    same. *)
Theorem build_index_json_independent
    (name1 stem1 name2 stem2 : str) (figs1 figs2 : list json) (w : World) :
  stem1 ≠ stem2 ->
  let w12 := build_index_json name2 stem2 figs2 (build_index_json name1 stem1 figs1 w) in
  let w21 := build_index_json name1 stem1 figs1 (build_index_json name2 stem2 figs2 w) in
  meta_dir w12 = meta_dir w21
  /\ meta_dir w12 !! index_name stem1 = Some (dumps (index_record stem1 name1 figs1))
  /\ meta_dir w12 !! index_name stem2 = Some (dumps (index_record stem2 name2 figs2)).
Proof.
  intros Hne. cbv zeta. rewrite !build_index_json_meta.
  assert (index_name stem1 ≠ index_name stem2) by (by intros ?%index_name_inj).
  split; [by apply insert_insert_ne|]. split.
  - rewrite lookup_insert_ne by done. apply lookup_insert_eq.
  - apply lookup_insert_eq.
Qed.

Lemma build_index_json_independent_witness :
  meta_dir (build_index_json (lit "b.pdf") (lit "b") []
              (build_index_json (lit "a.pdf") (lit "a") [] empty_world))
  = meta_dir (build_index_json (lit "a.pdf") (lit "a") []
                (build_index_json (lit "b.pdf") (lit "b") [] empty_world)).
Proof.
  refine (proj1 (build_index_json_independent (lit "a.pdf") (lit "a") (lit "b.pdf") (lit "b")
                   [] [] empty_world _)).
  vm_compute. discriminate.
Defined.

(** ** When the manual indexer writes *)



(** ** Leftover raw files and the manual indexer *)

Lemma fnmatch_plain_app s : forall rest n,
  glob_plain s = true -> fnmatch (s ++ rest) n = true ->
  exists n', n = s ++ n' /\ fnmatch rest n' = true.
Proof.
  induction s as [|c s IH]; intros rest n Hs Hm; [by exists n|].
  simpl in Hs. apply andb_prop in Hs as [Hc Hs].
  apply negb_true_iff in Hc. apply orb_false_elim in Hc as [Hc H91].
  apply orb_false_elim in Hc as [H42 H63].
  simpl in Hm. rewrite H42 in Hm. destruct n as [|d n]; [done|].
  rewrite H63 in Hm. simpl in Hm. apply andb_prop in Hm as [Hd Hm].
  apply N.eqb_eq in Hd. subst d.
  destruct (IH rest n Hs Hm) as (n' & -> & Hn'). by exists n'.
Qed.

(** A name matched by the raw pattern has the suffix [.png]. *)
Lemma raw_name_is_image pdf_stem n :
  glob_plain pdf_stem = true -> fnmatch (raw_pattern pdf_stem) n = true ->
  is_image_suffix n = true.
Proof.
  intros Hs Hm. unfold raw_pattern in Hm.
  change (lit "_RAW_*.png") with (lit "_RAW_" ++ 42 :: lit ".png") in Hm.
  rewrite app_assoc in Hm.
  apply fnmatch_plain_app in Hm as (n' & -> & Hn'); [|by rewrite glob_plain_app, Hs].
  apply fnmatch_star_inv in Hn' as (a & b & -> & Hb).
  apply fnmatch_plain_exact in Hb as ->; [|done].
  unfold is_image_suffix, suffix.
  rewrite !app_assoc. change (lit ".png") with (46 :: lit "png").
  rewrite split_last_dot_app.
  - destruct ((pdf_stem ++ lit "_RAW_") ++ a) eqn:E; [by destruct pdf_stem|]. reflexivity.
  - vm_compute. intros H. by repeat (apply elem_of_cons in H as [H|H]; [done|]);
      apply elem_of_nil in H.
Qed.

(** X15. The manual indexer run on the default folder takes every file
    of the images directory with an image suffix, the raw files a failed
    conversion has left there among them: such a leftover becomes a
    figure of the index. *)
Theorem build_from_images_indexes_raw_leftovers
    (paper_id pdf_stem : str) (w : World) (n : str) :
  glob_plain pdf_stem = true ->
  is_Some (images_dir w !! n) ->
  fnmatch (raw_pattern pdf_stem) n = true ->
  let names := image_files (elements (dom (images_dir w))) in
  n ∈ names
  /\ meta_dir (build_from_images paper_id None w) !! index_name paper_id
     = Some (dumps (manual_index_record paper_id
                      (List.map (manual_figure_record paper_id) names)))
  /\ (forall m, m ∈ names <-> is_Some (images_dir w !! m) /\ is_image_suffix m = true).
Proof.
  intros Hs Hn Hm. cbv zeta.
  assert (Hall : forall m, m ∈ image_files (elements (dom (images_dir w)))
                           <-> is_Some (images_dir w !! m) /\ is_image_suffix m = true).
  { intros m. by rewrite elem_of_image_files, elem_of_elements, elem_of_dom. }
  assert (Hin : n ∈ image_files (elements (dom (images_dir w)))).
  { apply Hall. split; [done|]. by apply (raw_name_is_image pdf_stem). }
  split; [done|]. split; [|done].
  rewrite (build_from_images_meta paper_id None w (elements (dom (images_dir w)))) by done.
  destruct (image_files (elements (dom (images_dir w)))); [by apply elem_of_nil in Hin|].
  apply lookup_insert_eq.
Qed.

Lemma build_from_images_indexes_raw_leftovers_witness :
  lit "P1_RAW_-001.png" ∈ image_files (elements (dom (images_dir after_P1))).
Proof.
  refine (proj1 (build_from_images_indexes_raw_leftovers (lit "P0010") (lit "P1") after_P1
                   (lit "P1_RAW_-001.png") eq_refl _ eq_refl)).
  vm_compute. by eexists.
Defined.

Example manual_index_after_failed_conversion :
  image_files (elements (dom (images_dir after_P1)))
  = [lit "F1.png"; lit "F3.png"; lit "P1_RAW_-001.png"].
Proof. vm_compute. reflexivity. Qed.

(** ** Blank space around the font report *)

Lemma lstrip_app_space ws s :
  Forall (fun c => is_space c = true) ws -> lstrip (ws ++ s) = lstrip s.
Proof. induction 1 as [|c ws Hc _ IH]; [done|]. simpl. by rewrite Hc. Qed.

Lemma lstrip_nil_space s : lstrip s = [] -> Forall (fun c => is_space c = true) s.
Proof.
  induction s as [|c s IH]; [constructor|]. simpl.
  destruct (is_space c) eqn:E; [|done]. intros H. constructor; [done|by apply IH].
Qed.

Lemma lstrip_space_nil s : Forall (fun c => is_space c = true) s -> lstrip s = [].
Proof. intros H. rewrite <- (app_nil_r s). by rewrite lstrip_app_space. Qed.

Lemma lstrip_app_cons s c t x : lstrip s = c :: t -> lstrip (s ++ x) = (c :: t) ++ x.
Proof.
  induction s as [|d s IH]; [done|]. simpl.
  destruct (is_space d); [done|]. by intros [= -> ->].
Qed.

Lemma rstrip_app_space s ws :
  Forall (fun c => is_space c = true) ws -> rstrip (s ++ ws) = rstrip s.
Proof.
  intros H. unfold rstrip. rewrite rev_app_distr, lstrip_app_space; [done|].
  by apply Forall_rev.
Qed.

Lemma strip_pad ws1 s ws2 :
  Forall (fun c => is_space c = true) ws1 -> Forall (fun c => is_space c = true) ws2 ->
  strip (ws1 ++ s ++ ws2) = strip s.
Proof.
  intros H1 H2. unfold strip. rewrite lstrip_app_space by done.
  destruct (lstrip s) as [|c t] eqn:E.
  - rewrite lstrip_space_nil; [done|]. apply Forall_app. split; [|done].
    by apply lstrip_nil_space.
  - rewrite (lstrip_app_cons _ _ _ _ E). by apply rstrip_app_space.
Qed.

(** X16. Blank space, blank lines included, before and after the font
    report does not change the classification: two inspectors whose
    reports differ by such padding only classify alike. *)
Theorem is_digital_pdf_ignores_padding
    (T T' : Tools) (pdf_name : str) (ws1 ws2 : str) :
  Forall (fun c => is_space c = true) ws1 ->
  Forall (fun c => is_space c = true) ws2 ->
  font_report T' pdf_name = ws1 ++ font_report T pdf_name ++ ws2 ->
  is_digital_pdf T' pdf_name = is_digital_pdf T pdf_name.
Proof.
  intros H1 H2 E. rewrite !is_digital_pdf_unfold, E. by rewrite strip_pad.
Qed.

Lemma is_digital_pdf_ignores_padding_witness :
  is_digital_pdf (const_fonts (0%Z, [10; 32] ++ fonts_header ++ [10; 10], [])) (lit "P1.pdf")
  = is_digital_pdf (const_fonts (0%Z, fonts_header, [])) (lit "P1.pdf").
Proof.
  refine (is_digital_pdf_ignores_padding
            (const_fonts (0%Z, fonts_header, []))
            (const_fonts (0%Z, [10; 32] ++ fonts_header ++ [10; 10], []))
            (lit "P1.pdf") [10; 32] [10; 10] _ _ eq_refl);
    repeat constructor.
Defined.

(** * Exceptions out of [run_cmd] *)

(** [run_cmd] is [subprocess.run(cmd, capture_output=True, text=True)]. It
    raises [FileNotFoundError] when the program cannot be launched, and
    then nothing has run; it raises [UnicodeDecodeError] when the program
    has run and what it printed cannot be decoded. No [try] of the program
    encloses a call of [run_cmd]: the exception leaves [is_digital_pdf],
    [run_ocr] or [extract_images], then the loop of the batch, then the
    batch. The batch operations are taken up here with that path. An
    operation gives back how it ended and the state it leaves. *)

Module Raising.

Inductive CmdError : Type :=
  | FileNotFoundError
  | UnicodeDecodeError.

Inductive ran (A : Type) : Type :=
  | Returned (a : A)
  | Raised (e : CmdError).

Arguments Returned {A} a.
Arguments Raised {A} e.

(** The external programs and, for each command line, whether running it
    raises. *)
Record Commands : Type := mkCommands {
  tools : Tools;
  pdffonts_raises : str -> option CmdError;
  ocrmypdf_raises : str -> str -> gmap str bytes -> option CmdError;
  pdfimages_raises : str -> str -> gmap str bytes -> option CmdError
}.

(** [run_cmd] on a command line that names a file of [input/] only. *)
Definition run_cmd_read (raises : option CmdError) (tool : cmd_result) : ran cmd_result :=
  match raises with
  | None => Returned tool
  | Some e => Raised e
  end.

(** [run_cmd] on a command line whose program writes to the directory
    [d]. *)
Definition run_cmd (raises : option CmdError)
    (tool : gmap str bytes -> cmd_result * gmap str bytes) (d : gmap str bytes)
    : ran cmd_result * gmap str bytes :=
  match raises with
  | None => let '(r, d') := tool d in (Returned r, d')
  | Some FileNotFoundError => (Raised FileNotFoundError, d)
  | Some UnicodeDecodeError => (Raised UnicodeDecodeError, (tool d).2)
  end.

Definition is_digital_pdf (C : Commands) (pdf_name : str) : ran bool :=
  match run_cmd_read (pdffonts_raises C pdf_name) (pdffonts (tools C) pdf_name) with
  | Raised e => Raised e
  | Returned (_, out, _) =>
      let lines := splitlines (strip out) in
      Returned (2 <? length lines)%nat
  end.

Definition run_ocr (C : Commands) (input_pdf output_pdf : str) (w : World)
    : ran bool * World :=
  match run_cmd (ocrmypdf_raises C input_pdf output_pdf (ocr_dir w))
          (ocrmypdf (tools C) input_pdf output_pdf) (ocr_dir w) with
  | (Raised e, ocr') => (Raised e, set_ocr_dir ocr' w)
  | (Returned (code, out, err), ocr') =>
      let w := set_ocr_dir ocr' w in
      let ok := exists_nonempty (ocr_dir w) output_pdf in
      if ok then (Returned true, w)
      else
        let w := print (WarnNoOcrOutput input_pdf) w in
        let w := match strip err with
                 | [] => w
                 | _ :: _ => print (Diagnostic (strip err)) w
                 end in
        (Returned false, w)
  end.

Definition extract_images (C : Commands) (pdf_name pdf_stem : str) (w : World)
    : ran (list json) * World :=
  let raw_prefix := pdf_stem ++ lit "_RAW_" in
  let cleaned := cleaned_images pdf_stem w in
  match run_cmd (pdfimages_raises C pdf_name raw_prefix cleaned)
          (pdfimages (tools C) pdf_name raw_prefix) cleaned with
  | (Raised e, images') => (Raised e, set_images_dir images' w)
  | (Returned _, images') =>
      let raw_images := sorted (glob images' (raw_pattern pdf_stem)) in
      let '(figures, w) :=
        convert_loop (tools C) pdf_stem 1 raw_images [] (set_images_dir images' w) in
      (Returned figures, w)
  end.

(** The body of the loop of [ocr_only_all]. *)
Definition ocr_one (C : Commands) (w : World) (pdf_name : str) : ran unit * World :=
  let pdf_stem := stem pdf_name in
  let w := print (OcrCheck pdf_name) w in
  match is_digital_pdf C pdf_name with
  | Raised e => (Raised e, w)
  | Returned true => (Returned (), print WarnFontsDetected w)
  | Returned false =>
      let ocr_pdf := pdf_stem ++ lit "_ocr.pdf" in
      let w := print RunningOcr w in
      match run_ocr C pdf_name ocr_pdf w with
      | (Raised e, w) => (Raised e, w)
      | (Returned ok, w) =>
          (Returned (), if ok then print (OcrOutput ocr_pdf) w else print ErrorOcrFailed w)
      end
  end.

(** The body of the loop of [extract_images_and_json_all]. *)
Definition extract_one (C : Commands) (w : World) (pdf_name : str) : ran unit * World :=
  let pdf_stem := stem pdf_name in
  let w := print (ImagesAndJson pdf_name) w in
  match is_digital_pdf C pdf_name with
  | Raised e => (Raised e, w)
  | Returned false =>
      let w := print WarnNoFonts w in
      (Returned (), build_index_json pdf_name pdf_stem [] w)
  | Returned true =>
      let w := print FontsDetected w in
      match extract_images C pdf_name pdf_stem w with
      | (Raised e, w) => (Raised e, w)
      | (Returned figures, w) => (Returned (), build_index_json pdf_name pdf_stem figures w)
      end
  end.

(** [for pdf_path in pdfs: body]: an exception out of the body ends the
    loop. *)
Fixpoint for_each (body : World -> str -> ran unit * World) (pdfs : list str) (w : World)
    : ran unit * World :=
  match pdfs with
  | [] => (Returned (), w)
  | pdf_path :: rest =>
      match body w pdf_path with
      | (Returned _, w) => for_each body rest w
      | (Raised e, w) => (Raised e, w)
      end
  end.

Definition ocr_only_all (C : Commands) (w : World) : ran unit * World :=
  match input_pdfs w with
  | [] => (Returned (), print NoPdfsFound w)
  | pdfs => for_each (ocr_one C) pdfs w
  end.

Definition extract_images_and_json_all (C : Commands) (w : World) : ran unit * World :=
  match input_pdfs w with
  | [] => (Returned (), print NoPdfsFound w)
  | pdfs => for_each (extract_one C) pdfs w
  end.


(** The commands of tools that are installed and print text. *)
Definition of_tools (T : Tools) : Commands :=
  mkCommands T (fun _ => None) (fun _ _ _ => None) (fun _ _ _ => None).

End Raising.

(** ** The operations with and without the raising path *)













(** ** The loop *)

Section ForEach.

Variable body : World -> str -> Raising.ran unit * World.
Variable total_body : World -> str -> World.

Hypothesis body_returned : forall w p u w',
  body w p = (Raising.Returned u, w') -> w' = total_body w p.





End ForEach.

(** ** The batches *)







(** *** Three documents, the second with fonts that are not text *)






(** The run without raises of the three documents: the transformer fails
    on [b.pdf] and [c.pdf] is still handled. *)
Example quiet_batches_go_on :
  Raising.ocr_only_all (Raising.of_tools batch_tools) batch_world
  = (Raising.Returned (), ocr_only_all batch_tools batch_world)
  /\ Raising.extract_images_and_json_all (Raising.of_tools batch_tools) batch_world
     = (Raising.Returned (), extract_images_and_json_all batch_tools batch_world)
  /\ ocr_dir (ocr_only_all batch_tools batch_world)
     = {[ lit "c_ocr.pdf" := lit "c.pdf" ++ [1] ]}.
Proof. split; [|split]; vm_compute; reflexivity. Qed.

(** The transformer writes the file of [c.pdf] and prints what cannot be
    decoded: the file is there and the batch has ended with the exception.
    The extractor cannot be launched: no index is written for [a.pdf]. *)
Definition failing_commands : Raising.Commands :=
  Raising.mkCommands batch_tools
    (fun _ => None)
    (fun input _ _ =>
       if decide (input = lit "c.pdf") then Some Raising.UnicodeDecodeError else None)
    (fun _ _ _ => Some Raising.FileNotFoundError).

Example raise_after_the_tool_has_run :
  Raising.ocr_only_all failing_commands batch_world
  = (Raising.Raised Raising.UnicodeDecodeError,
     mkWorld (input_dir batch_world) {[ lit "c_ocr.pdf" := lit "c.pdf" ++ [1] ]} ∅ ∅ ∅
       [OcrCheck (lit "a.pdf"); WarnFontsDetected;
        OcrCheck (lit "b.pdf"); RunningOcr; WarnNoOcrOutput (lit "b.pdf");
        Diagnostic (lit "InputFileError"); ErrorOcrFailed;
        OcrCheck (lit "c.pdf"); RunningOcr])
  /\ Raising.extract_images_and_json_all failing_commands batch_world
     = (Raising.Raised Raising.FileNotFoundError,
        mkWorld (input_dir batch_world) ∅ ∅ ∅ ∅
          [ImagesAndJson (lit "a.pdf"); FontsDetected]).
Proof. split; vm_compute; reflexivity. Qed.

Example empty_input_never_raises :
  Raising.ocr_only_all failing_commands empty_world
  = (Raising.Returned (), mkWorld ∅ ∅ ∅ ∅ ∅ [NoPdfsFound])
  /\ Raising.extract_images_and_json_all failing_commands empty_world
     = (Raising.Returned (), mkWorld ∅ ∅ ∅ ∅ ∅ [NoPdfsFound]).
Proof. split; vm_compute; reflexivity. Qed.

